(** * poorcal.calculator: the four-operation [Calculator] class

    The class of [src/poorcal/calculator.py] has four methods, each taking two
    operands annotated [float] and returning a [float]:
<<
      add(a, b)      = a + b
      subtract(a, b) = a - b
      multiply(a, b) = a * b
      divide(a, b)   = raise ValueError(...) if b == 0 else a / b
>>
    The operands are modelled at their annotated type.  A Python [float] is
    an IEEE-754 binary64 number: the Standard Library's [spec_float] at
    precision 53 and maximal exponent 1024, whose operations are executable
    Rocq functions (no primitive floats, no axioms), with signed zeros,
    infinities and NaN.  An integer literal used as an operand, as in
    [add(2, 3)], denotes the float of that value ([of_Z]).  Exceptions are
    modelled by an explicit [outcome] type. *)

From Stdlib Require Import ZArith Bool String Lia.
From Stdlib Require Import QArith Qpower Qabs Lqa.
From Stdlib Require Import Floats.SpecFloat.

Local Open Scope Z_scope.

(** ** Exceptions *)

Inductive exn : Type :=
| ValueError (msg : string)
| ZeroDivisionError (msg : string).

Inductive outcome (A : Type) : Type :=
| Returned (v : A)
| Raised (e : exn).

Arguments Returned {A} v.
Arguments Raised {A} e.

Definition bind {A B : Type} (o : outcome A) (k : A -> outcome B) : outcome B :=
match o with
| Returned v => k v
| Raised e => Raised e
end.

Definition fails {A : Type} (o : outcome A) : bool :=
match o with
| Returned _ => false
| Raised _ => true
end.

(** ** Python floats *)

Module Float64.

Definition prec : Z := 53.
Definition emax : Z := 1024.

(** The values a Python [float] can take.  The well-formed ones satisfy
    [valid_binary prec emax]. *)
Definition float : Type := spec_float.

Definition is_float64 (x : float) : bool := valid_binary prec emax x.

Definition pos_zero : float := S754_zero false.
Definition neg_zero : float := S754_zero true.
Definition pos_inf : float := S754_infinity false.
Definition neg_inf : float := S754_infinity true.
Definition nan : float := S754_nan.

(** [m * 2^e], rounded to the nearest float: the value of a literal. *)
Definition dyadic (m e : Z) : float := binary_normalize prec emax m e false.

(** The float an integer literal denotes when it is used as an operand. *)
Definition of_Z (z : Z) : float := dyadic z 0.

Definition is_nan (x : float) : bool :=
  match x with S754_nan => true | _ => false end.

Definition is_zero (x : float) : bool :=
  match x with S754_zero _ => true | _ => false end.

Definition is_finite (x : float) : bool :=
  match x with S754_zero _ | S754_finite _ _ _ => true | _ => false end.

(** The operators [+], [-], [*], unary [-] and [==] between two floats.
    None of them raises. *)
Definition py_add (a b : float) : float := SFadd prec emax a b.
Definition py_sub (a b : float) : float := SFsub prec emax a b.
Definition py_mul (a b : float) : float := SFmul prec emax a b.
Definition py_neg (a : float) : float := SFopp a.
Definition py_eq (a b : float) : bool := SFeqb a b.

(** [x == z] for a float [x] and an integer [z]: Python compares the two
    exact values, so no float other than the two zeros equals [0]. *)
Definition py_eq_int (x : float) (z : Z) : bool :=
  match x with
  | S754_zero _ => z =? 0
  | S754_finite s m e =>
      let v := cond_Zopp s (Zpos m) in
      if 0 <=? e then v * 2 ^ e =? z else v =? z * 2 ^ (- e)
  | S754_infinity _ | S754_nan => false
  end.

(** The operator [/] between two floats: a zero divisor raises
    [ZeroDivisionError], anything else is the IEEE quotient. *)
Definition py_div (a b : float) : float := SFdiv prec emax a b.

Definition py_truediv (a b : float) : outcome float :=
  if is_zero b
  then Raised (ZeroDivisionError "float division by zero")
  else Returned (py_div a b).

(** A normal float: finite, with a full 53-bit mantissa. *)
Definition is_normal (x : float) : bool :=
  match x with
  | S754_finite _ m _ => Zpos (digits2_pos m) =? prec
  | _ => false
  end.

(** When NaN comes out of [+], [-] and [*] on operands that are not NaN. *)
Definition opposite_infinities (a b : float) : bool :=
  match a, b with
  | S754_infinity s, S754_infinity s' => xorb s s'
  | _, _ => false
  end.

Definition same_infinities (a b : float) : bool :=
  match a, b with
  | S754_infinity s, S754_infinity s' => Bool.eqb s s'
  | _, _ => false
  end.

Definition zero_times_infinity (a b : float) : bool :=
  match a, b with
  | S754_zero _, S754_infinity _ | S754_infinity _, S754_zero _ => true
  | _, _ => false
  end.

(** Two floats that are the same, or are both zeros. *)
Definition same_or_zeros (x y : float) : Prop :=
  x = y \/ (is_zero x = true /\ is_zero y = true).

(** *** Exact values

    [mag m e] is the rational [m * 2^e]; [F2Q x] is the exact value of a
    finite float (and [0] for the others). *)
Definition pow2 (e : Z) : Q := (2 ^ e)%Q.
Definition mag (m e : Z) : Q := (inject_Z m * pow2 e)%Q.

Definition F2Q (x : float) : Q :=
  match x with
  | S754_finite s m e => if s then (- mag (Zpos m) e)%Q else mag (Zpos m) e
  | _ => 0%Q
  end.

(** [x] is within relative tolerance [rel_tol] of [y]: the test of
    [math.isclose(x, y, rel_tol=rel_tol)], carried out on exact values.
    Infinities are close to themselves only, NaN to nothing. *)
Definition close_to (rel_tol : Q) (x y : float) : bool :=
  match x, y with
  | S754_nan, _ | _, S754_nan => false
  | S754_infinity s, S754_infinity s' => Bool.eqb s s'
  | S754_infinity _, _ | _, S754_infinity _ => false
  | _, _ =>
      let diff := Qabs (F2Q x - F2Q y) in
      Qle_bool diff (rel_tol * Qabs (F2Q y)) || Qle_bool diff (rel_tol * Qabs (F2Q x))
  end.

(** *** Vocabulary of the rounding proofs

    [loc_of r d] is the position of the fraction [r / d] (with
    [0 <= r < d]) relative to one half; [pack] is the last step of
    [binary_round_aux], which builds the float from the rounded mantissa. *)
Definition loc_of (r d : Z) : location :=
  if r =? 0 then loc_Exact else loc_Inexact (2 * r ?= d).

Definition pack (sx : bool) (m e : Z) : float :=
  match m with
  | Z0 => S754_zero sx
  | Zpos p => if e <=? emax - prec then S754_finite sx p e else S754_infinity sx
  | Zneg _ => S754_nan
  end.

(** The operands of [/] whose quotient is NaN without either being NaN. *)
Definition both_infinities (a b : float) : bool :=
  match a, b with
  | S754_infinity _, S754_infinity _ => true
  | _, _ => false
  end.

End Float64.

(** ** The class *)

Module Calculator.
Import Float64.

Definition add (a b : float) : float := py_add a b.

Definition subtract (a b : float) : float := py_sub a b.

Definition multiply (a b : float) : float := py_mul a b.

Definition divide (a b : float) : outcome float :=
  if py_eq_int b 0
  then Raised (ValueError "The divisor cannot be zero")
  else py_truediv a b.

(** The four entry points of the service, called by name. *)
Inductive operation : Type := Add | Subtract | Multiply | Divide.

Definition call (op : operation) (a b : float) : outcome float :=
  match op with
  | Add => Returned (add a b)
  | Subtract => Returned (subtract a b)
  | Multiply => Returned (multiply a b)
  | Divide => divide a b
  end.

End Calculator.

Import Float64 Calculator.

(** ** Basic facts about the float operators *)

Lemma py_eq_int_zero (b : float) : py_eq_int b 0 = is_zero b.
Proof.
  destruct b as [s | s | | s m e]; try reflexivity.
  unfold py_eq_int.
  destruct (0 <=? e) eqn:He.
  - apply Z.leb_le in He. apply Z.eqb_neq.
    assert (0 < 2 ^ e) by (apply Z.pow_pos_nonneg; lia).
    destruct s; simpl cond_Zopp; nia.
  - apply Z.eqb_neq. destruct s; simpl cond_Zopp; lia.
Qed.

Lemma py_eq_zero (b : float) (s : bool) : py_eq b (S754_zero s) = is_zero b.
Proof. destruct b as [s' | [|] | | [|] m e]; reflexivity. Qed.

Lemma py_eq_refl (x : float) : py_eq x x = negb (is_nan x).
Proof.
  destruct x as [s | [|] | | [|] m e]; try reflexivity;
    unfold py_eq, SFeqb, SFcompare;
    rewrite Z.compare_refl, Pos.compare_cont_refl; reflexivity.
Qed.

Lemma py_add_comm (a b : float) : py_add a b = py_add b a.
Proof.
  destruct a as [sa | sa | | sa ma ea], b as [sb | sb | | sb mb eb];
    try reflexivity; try (destruct sa, sb; reflexivity).
  unfold py_add, SFadd. rewrite (Z.min_comm eb ea). f_equal. apply Z.add_comm.
Qed.

Lemma py_mul_comm (a b : float) : py_mul a b = py_mul b a.
Proof.
  destruct a as [sa | sa | | sa ma ea], b as [sb | sb | | sb mb eb];
    try reflexivity; try (destruct sa, sb; reflexivity).
  unfold py_mul, SFmul.
  rewrite (xorb_comm sb sa), (Pos.mul_comm mb ma), (Z.add_comm eb ea).
  reflexivity.
Qed.

(** Rounding does not look at the sign: it only places it on the result. *)
Lemma binary_round_aux_opp (s : bool) (m e : Z) (l : location) :
  binary_round_aux prec emax (negb s) m e l
  = SFopp (binary_round_aux prec emax s m e l).
Proof.
  unfold binary_round_aux.
  destruct (shr_fexp prec emax m e l) as [mrs e1].
  destruct (shr_fexp prec emax _ e1 loc_Exact) as [mrs2 e2].
  destruct (shr_m mrs2); try reflexivity.
  destruct (e2 <=? emax - prec); reflexivity.
Qed.

Lemma binary_round_opp (s : bool) (m : positive) (e : Z) :
  binary_round prec emax (negb s) m e = SFopp (binary_round prec emax s m e).
Proof.
  unfold binary_round.
  destruct (shl_align m e _) as [mz ez]. apply binary_round_aux_opp.
Qed.

Lemma same_or_zeros_py_eq (x y : float) :
  same_or_zeros x y -> py_eq x y = negb (is_nan x).
Proof.
  intros [-> | [Hx Hy]].
  - apply py_eq_refl.
  - destruct x, y; try discriminate; reflexivity.
Qed.

Lemma binary_normalize_opp (m e : Z) :
  same_or_zeros (binary_normalize prec emax (- m) e false)
                (SFopp (binary_normalize prec emax m e false)).
Proof.
  destruct m as [| p | p]; simpl.
  - right. split; reflexivity.
  - left. apply (binary_round_opp false).
  - left. rewrite (binary_round_opp false). 
    destruct (binary_round prec emax false p e) as [? | ? | | ? ? ?]; simpl;
      rewrite ?negb_involutive; reflexivity.
Qed.

Lemma py_sub_antisym (a b : float) :
  same_or_zeros (py_sub a b) (py_neg (py_sub b a)).
Proof.
  destruct a as [sa | sa | | sa ma ea], b as [sb | sb | | sb mb eb];
    try (left; reflexivity);
    try (destruct sa, sb; (left; reflexivity) || (right; split; reflexivity)).
  unfold py_sub, py_neg, SFsub. rewrite (Z.min_comm eb ea).
  match goal with
  | |- same_or_zeros (binary_normalize _ _ ?x _ _)
                     (SFopp (binary_normalize _ _ ?y _ _)) =>
      replace x with (- y) by lia
  end.
  apply binary_normalize_opp.
Qed.

(** ** Round to nearest even, as [binary_round_aux] computes it

    A real [x >= 0] is handed to the rounding as a mantissa [mx], an exponent
    [ex] and the position of the remaining fraction [r / d], so that
    [x = (mx + r / d) * 2^ex].  The lemmas below follow the two shifts and
    the rounding step and bound the distance between the result and [x]. *)

Lemma iter_pos_nat {A : Type} (f : A -> A) (p : positive) (x : A) :
  iter_pos f p x = Nat.iter (Pos.to_nat p) f x.
Proof.
  revert x. induction p as [p IH | p IH |]; intros x; cbn [iter_pos].
  - rewrite !IH, Pos2Nat.inj_xI. 
    replace (S (2 * Pos.to_nat p)) with (Pos.to_nat p + S (Pos.to_nat p))%nat by lia.
    rewrite Nat.iter_add, Nat.iter_succ_r. reflexivity.
  - rewrite !IH, Pos2Nat.inj_xO.
    replace (2 * Pos.to_nat p)%nat with (Pos.to_nat p + Pos.to_nat p)%nat by lia.
    rewrite Nat.iter_add. reflexivity.
  - reflexivity.
Qed.

Lemma loc_of_shr_record_of_loc (m : Z) (l : location) :
  loc_of_shr_record (shr_record_of_loc m l) = l /\ shr_m (shr_record_of_loc m l) = m.
Proof. destruct l as [| [ | | ]]; split; reflexivity. Qed.

Lemma shr_1_spec (mrs : shr_record) (r d : Z) :
  0 <= shr_m mrs -> 0 <= r < d ->
  loc_of_shr_record mrs = loc_of r d ->
  shr_m (shr_1 mrs) = shr_m mrs / 2
  /\ loc_of_shr_record (shr_1 mrs) = loc_of (shr_m mrs mod 2 * d + r) (2 * d).
Proof.
  destruct mrs as [m rb sb]. cbn [shr_m loc_of_shr_record]. intros Hm Hr Hl.
  assert (Hs : orb rb sb = negb (r =? 0)).
  { unfold loc_of in Hl. destruct (r =? 0); destruct rb, sb; cbn [orb negb]; congruence. }
  assert (Hdm : m = 2 * (m / 2) + m mod 2) by (apply Z.div_mod; lia).
  assert (Hb : 0 <= m mod 2 < 2) by (apply Z.mod_pos_bound; lia).
  assert (Hcase : forall q b, m = 2 * q + b -> 0 <= b < 2 -> m / 2 = q /\ m mod 2 = b).
  { intros q b E B. split; [symmetry; apply (Z.div_unique m 2 q b) | symmetry; apply (Z.mod_unique m 2 q b)]; lia. }
  assert (Hloc0 : loc_of (0 * d + r) (2 * d)
                  = if negb (r =? 0) then loc_Inexact Lt else loc_Exact).
  { unfold loc_of. replace (0 * d + r) with r by lia.
    destruct (r =? 0) eqn:E; cbn [negb]; [reflexivity |].
    apply Z.eqb_neq in E. f_equal. apply Z.compare_lt_iff. lia. }
  assert (Hloc1 : loc_of (1 * d + r) (2 * d)
                  = if negb (r =? 0) then loc_Inexact Gt else loc_Inexact Eq).
  { unfold loc_of. replace (1 * d + r =? 0) with false by (symmetry; apply Z.eqb_neq; lia).
    destruct (r =? 0) eqn:E; cbn [negb]; f_equal.
    - apply Z.eqb_eq in E. apply Z.compare_eq_iff. lia.
    - apply Z.eqb_neq in E. apply Z.compare_gt_iff. lia. }
  destruct m as [| [p | p |] |]; try lia;
    cbn [shr_1 shr_m loc_of_shr_record]; rewrite Hs.
  - destruct (Hcase 0 0) as [-> ->]; try lia. rewrite Hloc0. 
    split; [reflexivity | destruct (negb (r =? 0)); reflexivity].
  - destruct (Hcase (Zpos p) 1) as [-> ->]; try lia. rewrite Hloc1.
    split; [reflexivity | destruct (negb (r =? 0)); reflexivity].
  - destruct (Hcase (Zpos p) 0) as [-> ->]; try lia. rewrite Hloc0.
    split; [reflexivity | destruct (negb (r =? 0)); reflexivity].
  - destruct (Hcase 0 1) as [-> ->]; try lia. rewrite Hloc1.
    split; [reflexivity | destruct (negb (r =? 0)); reflexivity].
Qed.

Lemma shr_iter_spec (k : nat) (mrs : shr_record) (r d : Z) :
  0 <= shr_m mrs -> 0 <= r < d ->
  loc_of_shr_record mrs = loc_of r d ->
  let mrs' := Nat.iter k shr_1 mrs in
  let p := 2 ^ Z.of_nat k in
  shr_m mrs' = shr_m mrs / p
  /\ loc_of_shr_record mrs' = loc_of (shr_m mrs mod p * d + r) (p * d).
Proof.
  intros Hm Hr Hl. induction k as [| k IH].
  - simpl. rewrite Z.div_1_r, Z.mod_1_r. simpl. replace (1 * d) with d by lia.
    destruct d; split; (reflexivity || assumption).
  - cbv zeta in IH |- *. destruct IH as [IHm IHl].
    rewrite Nat2Z.inj_succ, Z.pow_succ_r by lia.
    set (p := 2 ^ Z.of_nat k) in *.
    assert (Hp : 0 < p) by (apply Z.pow_pos_nonneg; lia).
    assert (Hmod : 0 <= shr_m mrs mod p < p) by (apply Z.mod_pos_bound; lia).
    simpl Nat.iter.
    destruct (shr_1_spec (Nat.iter k shr_1 mrs) (shr_m mrs mod p * d + r) (p * d))
      as [Sm Sl].
    + rewrite IHm. apply Z.div_pos; lia.
    + nia.
    + exact IHl.
    + split.
      * rewrite Sm, IHm, Z.div_div by lia. f_equal. lia.
      * rewrite Sl, IHm. f_equal; [| lia].
        rewrite (Z.mul_comm 2 p), Z.rem_mul_r by lia. lia.
Qed.

Lemma round_nearest_even_spec (m r d : Z) :
  0 <= r < d ->
  let m' := round_nearest_even m (loc_of r d) in
  m <= m' <= m + 1 /\ 2 * Z.abs (m' * d - (m * d + r)) <= d.
Proof.
  intros Hr. unfold loc_of. destruct (r =? 0) eqn:E; cbv zeta; cbn [round_nearest_even].
  - apply Z.eqb_eq in E. subst r. split; [lia |].
    replace (m * d - (m * d + 0)) with 0 by lia. cbn [Z.abs]. lia.
  - apply Z.eqb_neq in E.
    destruct (Z.compare_spec (2 * r) d) as [H | H | H]; try destruct (Z.even m); 
      (split; [lia | nia]).
Qed.

(** *** Number of binary digits *)

Lemma digits2_pos_bounds (p : positive) :
  2 ^ (Zpos (digits2_pos p) - 1) <= Zpos p < 2 ^ Zpos (digits2_pos p).
Proof.
  induction p as [p IH | p IH |]; cbn [digits2_pos].
  - rewrite Pos2Z.inj_succ, (Pos2Z.inj_xI p).
    replace (Z.succ (Zpos (digits2_pos p)) - 1) with (Z.succ (Zpos (digits2_pos p) - 1)) by lia.
    rewrite !Z.pow_succ_r by lia. lia.
  - rewrite Pos2Z.inj_succ, (Pos2Z.inj_xO p).
    replace (Z.succ (Zpos (digits2_pos p)) - 1) with (Z.succ (Zpos (digits2_pos p) - 1)) by lia.
    rewrite !Z.pow_succ_r by lia. lia.
  - cbn. lia.
Qed.

Lemma Zdigits2_cases (m : Z) :
  0 <= m ->
  (m = 0 /\ Zdigits2 m = 0)
  \/ (1 <= Zdigits2 m /\ 2 ^ (Zdigits2 m - 1) <= m < 2 ^ Zdigits2 m).
Proof.
  intros Hm. destruct m as [| p | p]; [left; split; reflexivity | right | lia].
  cbn [Zdigits2]. split; [lia | apply digits2_pos_bounds].
Qed.

Lemma Zdigits2_le (m k : Z) : 0 <= k -> 0 <= m < 2 ^ k -> Zdigits2 m <= k.
Proof.
  intros Hk Hm. destruct (Zdigits2_cases m) as [[_ ->] | [H1 [H2 _]]]; try lia.
  apply Z.lt_pred_le. apply (Z.pow_lt_mono_r_iff 2); lia.
Qed.

Lemma Zdigits2_ge (m k : Z) : 0 <= k -> 2 ^ k <= m -> k + 1 <= Zdigits2 m.
Proof.
  intros Hk Hm. assert (0 < 2 ^ k) by (apply Z.pow_pos_nonneg; lia).
  destruct (Zdigits2_cases m) as [[-> _] | [H1 [_ H2]]]; try lia.
  apply Z.le_succ_l. apply (Z.pow_lt_mono_r_iff 2); lia.
Qed.

Lemma fexp_eq (e : Z) : fexp prec emax e = Z.max (e - 53) (-1074).
Proof. reflexivity. Qed.

Lemma shr_fexp_spec (mx ex r d : Z) (mrs : shr_record) (e1 : Z) :
  0 <= mx -> 0 <= r < d ->
  let n := fexp prec emax (Zdigits2 mx + ex) - ex in
  0 <= n ->
  shr_fexp prec emax mx ex (loc_of r d) = (mrs, e1) ->
  e1 = ex + n
  /\ shr_m mrs = mx / 2 ^ n
  /\ loc_of_shr_record mrs = loc_of (mx mod 2 ^ n * d + r) (2 ^ n * d).
Proof.
  intros Hm Hr n Hn. unfold shr_fexp. fold n.
  destruct (loc_of_shr_record_of_loc mx (loc_of r d)) as [Hl Hs].
  unfold shr. destruct n as [| p | p] eqn:En; try lia; intros [= <- <-].
  - rewrite Hl, Hs, Z.div_1_r, Z.mod_1_r. 
    replace (0 * d + r) with r by lia. replace (2 ^ 0 * d) with d by lia.
    repeat split. lia.
  - rewrite iter_pos_nat.
    destruct (shr_iter_spec (Pos.to_nat p) (shr_record_of_loc mx (loc_of r d)) r d)
      as [Sm Sl]; rewrite ?Hs; try assumption.
    rewrite positive_nat_Z, Hs in *. repeat split; assumption.
Qed.

Lemma binary_round_aux_spec (sx : bool) (mx ex r d : Z) :
  0 <= mx -> 0 <= r < d ->
  let n := fexp prec emax (Zdigits2 mx + ex) - ex in
  0 <= n ->
  exists m3 e3,
    binary_round_aux prec emax sx mx ex (loc_of r d) = pack sx m3 e3
    /\ 0 <= m3 < 2 ^ 53
    /\ ex + n <= e3
    /\ 2 * Z.abs (m3 * 2 ^ (e3 - ex) * d - (mx * d + r)) <= 2 ^ n * d
    /\ (e3 = -1074 \/ 2 ^ 52 <= m3)
    /\ (ex + n = -1074 \/ 2 ^ (n + 52) <= mx).
Proof.
  intros Hm Hr n Hn.
  assert (Hp : 0 < 2 ^ n) by (apply Z.pow_pos_nonneg; lia).
  unfold binary_round_aux.
  destruct (shr_fexp prec emax mx ex (loc_of r d)) as [mrs1 e1] eqn:S1.
  destruct (shr_fexp_spec mx ex r d mrs1 e1 Hm Hr Hn S1) as (He1 & Hm1 & Hl1).
  fold n in He1, Hm1, Hl1. rewrite Hl1, Hm1.
  set (m1 := mx / 2 ^ n) in *.
  set (r1 := mx mod 2 ^ n * d + r) in *.
  set (d1 := 2 ^ n * d) in *.
  assert (Hmod : 0 <= mx mod 2 ^ n < 2 ^ n) by (apply Z.mod_pos_bound; lia).
  assert (Hdm : mx = 2 ^ n * m1 + mx mod 2 ^ n) by (apply Z.div_mod; lia).
  assert (Hr1 : 0 <= r1 < d1) by (unfold r1, d1; nia).
  assert (Hm1' : 0 <= m1) by (apply Z.div_pos; lia).
  destruct (round_nearest_even_spec m1 r1 d1 Hr1) as [Hrange Herr].
  set (m2 := round_nearest_even m1 (loc_of r1 d1)) in *.
  assert (Hval : m1 * d1 + r1 = mx * d + r) by (unfold r1, d1; nia).
  rewrite Hval in Herr.
  (* the exponent reached by the first shift *)
  assert (Hfe : e1 = Z.max (Zdigits2 mx + ex - 53) (-1074)).
  { rewrite He1. unfold n. rewrite fexp_eq. lia. }
  (* size of the mantissa after the first shift *)
  assert (Hm1lt : m1 < 2 ^ 53).
  { apply Z.div_lt_upper_bound; [lia |].
    destruct (Zdigits2_cases mx Hm) as [[-> _] | (Hd1 & _ & Hlt)]; [lia |].
    rewrite <- Z.pow_add_r by lia.
    eapply Z.lt_le_trans; [exact Hlt |]. apply Z.pow_le_mono_r; lia. }
  assert (Hnorm : ex + n = -1074 \/ 2 ^ (n + 52) <= mx).
  { destruct (Zdigits2_cases mx Hm) as [[E0 Ed] | (Hd1 & Hge & _)].
    - left. rewrite Ed in Hfe. lia.
    - destruct (Z.eq_dec (ex + n) (-1074)) as [E | E]; [left; exact E | right].
      replace (n + 52) with (Zdigits2 mx - 1) by lia. exact Hge. }
  assert (Hnorm1 : e1 = -1074 \/ 2 ^ 52 <= m1).
  { destruct Hnorm as [E | E]; [left; lia | right].
    apply Z.div_le_lower_bound; [lia |]. rewrite <- Z.pow_add_r by lia. exact E. }
  destruct (Z.eq_dec m2 (2 ^ 53)) as [Ecarry | Ecarry].
  - (* the rounded mantissa carried into a new binade *)
    assert (Hd2 : Zdigits2 m2 = 54) by (rewrite Ecarry; reflexivity).
    assert (E52 : 2 ^ 52 <= m1) by lia.
    unfold shr_fexp. rewrite Hd2, fexp_eq.
    replace (Z.max (54 + e1 - 53) (-1074) - e1) with 1 by lia.
    rewrite Ecarry. cbn [shr_record_of_loc shr iter_pos].
    exists (2 ^ 52), (e1 + 1). repeat split; try lia.
    + replace (e1 + 1 - ex) with (Z.succ n) by lia. rewrite Z.pow_succ_r by lia.
      replace (2 ^ 52 * (2 * 2 ^ n) * d) with (m2 * d1) by (unfold d1; rewrite Ecarry; lia).
      exact Herr.
  - assert (Hm2 : 0 <= m2 < 2 ^ 53) by lia.
    assert (Hd2 : Zdigits2 m2 <= 53) by (apply Zdigits2_le; lia).
    unfold shr_fexp. rewrite fexp_eq.
    assert (Hn2 : Z.max (Zdigits2 m2 + e1 - 53) (-1074) - e1 <= 0) by lia.
    cbn [shr_record_of_loc]. unfold shr.
    destruct (Z.max (Zdigits2 m2 + e1 - 53) (-1074) - e1) as [| p | p] eqn:En2; try lia;
      cbn [shr_m]; exists m2, e1; repeat split; try lia;
      try (replace (e1 - ex) with n by lia;
           replace (m2 * 2 ^ n * d) with (m2 * d1) by (unfold d1; lia); exact Herr).
Qed.


Lemma binary_round_aux_noshift (sx : bool) (mx ex : Z) :
  fexp prec emax (Zdigits2 mx + ex) - ex <= 0 ->
  binary_round_aux prec emax sx mx ex loc_Exact = pack sx mx ex.
Proof.
  intros Hn. unfold binary_round_aux, shr_fexp, shr. cbn [shr_record_of_loc].
  destruct (fexp prec emax (Zdigits2 mx + ex) - ex) as [| p | p] eqn:En; try lia;
    cbn [shr_m loc_of_shr_record round_nearest_even]; rewrite En; reflexivity.
Qed.


Lemma new_location_spec (d r : Z) :
  0 <= r < d -> new_location d r = loc_of r d.
Proof.
  intros Hr. unfold new_location, new_location_even, new_location_odd, loc_of.
  destruct (Z.even d) eqn:Ev; [reflexivity |].
  destruct (r =? 0); [reflexivity | f_equal].
  assert (Hodd : Z.odd d = true) by (rewrite <- Z.negb_even, Ev; reflexivity).
  apply Z.odd_spec in Hodd. destruct Hodd as [k Hk].
  destruct (Z.compare_spec (2 * r + 1) d) as [H | H | H];
    symmetry; [apply Z.compare_lt_iff | apply Z.compare_lt_iff | apply Z.compare_gt_iff]; lia.
Qed.

(** The integer division that prepares the quotient of two finite floats. *)
Lemma SFdiv_core_binary_spec (m1 m2 : positive) (e1 e2 q e' : Z) (l : location) :
  SFdiv_core_binary prec emax (Zpos m1) e1 (Zpos m2) e2 = (q, e', l) ->
  exists s r,
    0 <= s /\ e' = e1 - e2 - s
    /\ Zpos m1 * 2 ^ s = q * Zpos m2 + r
    /\ 0 <= r < Zpos m2 /\ 0 <= q
    /\ l = loc_of r (Zpos m2)
    /\ 0 <= fexp prec emax (Zdigits2 q + e') - e'.
Proof.
  unfold SFdiv_core_binary.
  set (d1 := Zdigits2 (Zpos m1)). set (d2 := Zdigits2 (Zpos m2)).
  set (ez := Z.min (fexp prec emax (d1 + e1 - (d2 + e2))) (e1 - e2)).
  set (s := e1 - e2 - ez).
  assert (Hs : 0 <= s) by (unfold s, ez; lia).
  assert (Hd1 : 1 <= d1) by (unfold d1; cbn [Zdigits2]; lia).
  assert (Hd2 : 1 <= d2) by (unfold d2; cbn [Zdigits2]; lia).
  set (m' := match s with Zpos _ => Z.shiftl (Zpos m1) s | Z0 => Zpos m1 | Zneg _ => 0 end).
  assert (Hm' : m' = Zpos m1 * 2 ^ s).
  { unfold m'. destruct s as [| p | p] eqn:Es; try lia.
    rewrite Z.shiftl_mul_pow2 by lia. reflexivity. }
  assert (Hdiv := Z.div_eucl_eq m' (Zpos m2)).
  assert (Hmod := Z.mod_pos_bound m' (Zpos m2)).
  unfold Z.modulo in Hmod.
  destruct (Z.div_eucl m' (Zpos m2)) as [q0 r0] eqn:Ed.
  intros [= <- <- <-].
  specialize (Hdiv ltac:(lia)). specialize (Hmod ltac:(lia)).
  assert (Hp : 0 < 2 ^ s) by (apply Z.pow_pos_nonneg; lia).
  assert (Hq : 0 <= q0) by nia.
  exists s, r0. repeat split; try lia.
  - apply new_location_spec. lia.
  - (* the quotient has at least [d1 + s - d2] digits *)
    assert (Hdig : d1 + s - d2 <= Zdigits2 q0).
    { destruct (Z_lt_le_dec (d1 - 1 + s - d2) 0) as [Ht | Ht].
      - destruct (Zdigits2_cases q0 Hq) as [[_ ->] | [? _]]; lia.
      - assert (H1 := digits2_pos_bounds m1). assert (H2 := digits2_pos_bounds m2).
        fold (Zdigits2 (Zpos m1)) in H1. fold (Zdigits2 (Zpos m2)) in H2.
        fold d1 in H1. fold d2 in H2.
        assert (Hge : 2 ^ (d1 - 1 + s - d2) <= q0).
        { assert (E : 2 ^ (d1 - 1 + s - d2) * 2 ^ d2 = 2 ^ (d1 - 1) * 2 ^ s).
          { rewrite <- !Z.pow_add_r by lia. f_equal. lia. }
          assert (0 < 2 ^ (d1 - 1 + s - d2)) by (apply Z.pow_pos_nonneg; lia).
          nia. }
        apply Zdigits2_ge in Hge; lia. }
    unfold s, ez in Hdig |- *. rewrite !fexp_eq in Hdig. rewrite !fexp_eq. lia.
Qed.

(** ** When the operators return NaN *)

Lemma pack_not_nan (sx : bool) (m e : Z) : 0 <= m -> is_nan (pack sx m e) = false.
Proof.
  intros Hm. unfold pack. destruct m as [| p | p]; try reflexivity; [| lia].
  destruct (e <=? emax - prec); reflexivity.
Qed.

Lemma binary_round_aux_exact_not_nan (s : bool) (mx ex : Z) :
  0 <= mx -> is_nan (binary_round_aux prec emax s mx ex loc_Exact) = false.
Proof.
  intros Hm.
  destruct (Z_le_gt_dec 0 (fexp prec emax (Zdigits2 mx + ex) - ex)) as [Hs | Hs].
  - destruct (binary_round_aux_spec s mx ex 0 1) as (m3 & e3 & Hr & [Hm3 _] & _);
      try lia.
    change (loc_of 0 1) with loc_Exact in Hr. rewrite Hr. apply pack_not_nan, Hm3.
  - rewrite binary_round_aux_noshift by lia. apply pack_not_nan, Hm.
Qed.

Lemma binary_round_not_nan (s : bool) (m : positive) (e : Z) :
  is_nan (binary_round prec emax s m e) = false.
Proof.
  unfold binary_round. destruct (shl_align m e _) as [mz ez].
  apply binary_round_aux_exact_not_nan. lia.
Qed.

Lemma binary_normalize_not_nan (m e : Z) (s : bool) :
  is_nan (binary_normalize prec emax m e s) = false.
Proof.
  destruct m as [| p | p]; [reflexivity | |]; apply binary_round_not_nan.
Qed.

Lemma py_add_nan (a b : float) :
  is_nan (py_add a b) = is_nan a || is_nan b || opposite_infinities a b.
Proof.
  destruct a as [sa | sa | | sa ma ea], b as [sb | sb | | sb mb eb];
    try reflexivity; try (destruct sa, sb; reflexivity).
  apply binary_normalize_not_nan.
Qed.

Lemma py_sub_nan (a b : float) :
  is_nan (py_sub a b) = is_nan a || is_nan b || same_infinities a b.
Proof.
  destruct a as [sa | sa | | sa ma ea], b as [sb | sb | | sb mb eb];
    try reflexivity; try (destruct sa, sb; reflexivity).
  apply binary_normalize_not_nan.
Qed.

Lemma py_mul_nan (a b : float) :
  is_nan (py_mul a b) = is_nan a || is_nan b || zero_times_infinity a b.
Proof.
  destruct a as [sa | sa | | sa ma ea], b as [sb | sb | | sb mb eb];
    try reflexivity.
  apply binary_round_aux_exact_not_nan. lia.
Qed.

(** ** Error bounds on exact values *)

Lemma pow2_pos (e : Z) : (0 < pow2 e)%Q.
Proof. apply Qpower_0_lt. reflexivity. Qed.

Lemma pow2_add (a b : Z) : (pow2 (a + b) == pow2 a * pow2 b)%Q.
Proof. apply Qpower_plus. discriminate. Qed.

Lemma pow2_inject (k : Z) : 0 <= k -> (inject_Z (2 ^ k) == pow2 k)%Q.
Proof. intros Hk. apply (Zpower_Qpower 2 k Hk). Qed.


Lemma mag_shift (m k e : Z) : 0 <= k -> (mag (m * 2 ^ k) e == mag m (k + e))%Q.
Proof.
  intros Hk. unfold mag. rewrite inject_Z_mult, pow2_inject, pow2_add by exact Hk.
  ring.
Qed.

Lemma mag_pow2 (m a b : Z) : (mag m (a + b) == pow2 a * mag m b)%Q.
Proof. unfold mag. rewrite pow2_add. ring. Qed.

Lemma mag_mul (m1 e1 m2 e2 : Z) :
  (mag m1 e1 * mag m2 e2 == mag (m1 * m2) (e1 + e2))%Q.
Proof. unfold mag. rewrite inject_Z_mult, pow2_add. ring. Qed.

(** An integer inequality between mantissas, read at a common exponent. *)
Lemma mag_le (m1 m2 e : Z) : m1 <= m2 -> (mag m1 e <= mag m2 e)%Q.
Proof.
  intros H. unfold mag. apply Qmult_le_compat_r.
  - rewrite <- Zle_Qle. exact H.
  - apply Qlt_le_weak, pow2_pos.
Qed.

Lemma mag_plus (m1 m2 e : Z) : (mag (m1 + m2) e == mag m1 e + mag m2 e)%Q.
Proof. unfold mag. rewrite inject_Z_plus. ring. Qed.

Lemma mag_abs_bound (x y z c e : Z) :
  c * Z.abs (x - y) <= z ->
  (inject_Z c * Qabs (mag x e - mag y e) <= mag z e)%Q.
Proof.
  intros H. 
  assert (Hx : (mag x e - mag y e == mag (x - y) e)%Q).
  { unfold Z.sub. rewrite mag_plus. unfold mag. rewrite inject_Z_opp. ring. }
  rewrite Hx. unfold mag at 1. rewrite Qabs_Qmult, (Qabs_pos (pow2 e)) by apply Qlt_le_weak, pow2_pos.
  change (Qabs (inject_Z (x - y))) with (inject_Z (Z.abs (x - y))).
  rewrite Qmult_assoc, <- inject_Z_mult.
  apply (mag_le _ _ e H).
Qed.




Lemma SFdiv_error (sp sb : bool) (mp mb : positive) (ep eb : Z) :
  exists m3 e3,
    SFdiv prec emax (S754_finite sp mp ep) (S754_finite sb mb eb)
    = pack (xorb sp sb) m3 e3
    /\ 0 <= m3
    /\ (e3 = -1074 \/ 2 ^ 52 <= m3)
    /\ ((Qabs (mag m3 e3 * mag (Zpos mb) eb - mag (Zpos mp) ep)
         <= pow2 (-1075) * mag (Zpos mb) eb)%Q
        \/ (9007199254740992 * Qabs (mag m3 e3 * mag (Zpos mb) eb - mag (Zpos mp) ep)
            <= mag (Zpos mp) ep)%Q).
Proof.
  cbn [SFdiv].
  destruct (SFdiv_core_binary prec emax (Zpos mp) ep (Zpos mb) eb) as [[q e'] l] eqn:Hc.
  destruct (SFdiv_core_binary_spec _ _ _ _ _ _ _ Hc)
    as (s & r & Hs & He' & Hqr & Hr & Hq & -> & Hn).
  destruct (binary_round_aux_spec (xorb sp sb) q e' r (Zpos mb) Hq Hr Hn)
    as (m3 & e3 & Hres & [Hm3 _] & He3 & Herr & Hnorm3 & Hnorm).
  set (n := fexp prec emax (Zdigits2 q + e') - e') in *.
  exists m3, e3. repeat split; try assumption.
  assert (Hpn : 0 < 2 ^ n) by (apply Z.pow_pos_nonneg; lia).
  set (X := m3 * Zpos mb * 2 ^ (e3 - e')).
  set (Y := Zpos mp * 2 ^ s).
  replace (m3 * 2 ^ (e3 - e') * Zpos mb - (q * Zpos mb + r)) with (X - Y) in Herr
    by (unfold X, Y; lia).
  assert (HX : (mag X (e' + eb) == mag m3 e3 * mag (Zpos mb) eb)%Q).
  { unfold X. rewrite mag_shift, mag_mul by lia. 
    replace (e3 - e' + (e' + eb)) with (e3 + eb) by lia. reflexivity. }
  assert (HY : (mag Y (e' + eb) == mag (Zpos mp) ep)%Q).
  { unfold Y. rewrite mag_shift by lia.
    replace (s + (e' + eb)) with ep by lia. reflexivity. }
  destruct Hnorm as [Hsub | Hbig].
  - left.
    assert (H2 : 2 * Z.abs (X - Y) <= Zpos mb * 2 ^ n) by lia.
    apply (mag_abs_bound _ _ _ _ (e' + eb)) in H2.
    rewrite HX, HY, mag_shift in H2 by lia.
    replace (n + (e' + eb)) with (-1074 + eb) in H2 by lia.
    rewrite mag_pow2 in H2.
    assert (Hhalf : (pow2 (-1074) == 2 * pow2 (-1075))%Q).
    { change (-1074) with (1 + -1075). rewrite pow2_add. reflexivity. }
    rewrite Hhalf in H2.
    change (inject_Z 2) with 2%Q in H2. lra.
  - right.
    assert (H2 : 2 ^ 53 * Z.abs (X - Y) <= Y).
    { rewrite Z.pow_add_r in Hbig by lia. unfold Y. rewrite Hqr.
      assert (2 ^ n * 2 ^ 52 * Zpos mb <= q * Zpos mb) by nia.
      change (2 ^ 53) with (2 * 2 ^ 52). nia. }
    apply (mag_abs_bound _ _ _ _ (e' + eb)) in H2.
    rewrite HX, HY in H2. exact H2.
Qed.

Lemma mag_pos (m : positive) (e : Z) : (0 < mag (Zpos m) e)%Q.
Proof.
  unfold mag. apply Qmult_lt_0_compat; [| apply pow2_pos].
  change (inject_Z 0 < inject_Z (Zpos m))%Q. rewrite <- Zlt_Qlt. reflexivity.
Qed.



Lemma F2Q_abs (s : bool) (m : positive) (e : Z) :
  (Qabs (F2Q (S754_finite s m e)) == mag (Zpos m) e)%Q.
Proof.
  cbn [F2Q]. destruct s; rewrite ?Qabs_opp; apply Qabs_pos, Qlt_le_weak, mag_pos.
Qed.

(** ** The claims of the specification *)

Open Scope string_scope.

(** C1: for every [a], [divide(a, 0)] raises [ValueError] (Python's
    invalid-argument exception) with the message "The divisor cannot be
    zero", which ends in "divisor cannot be zero"; nothing is returned. *)
Theorem divide_by_zero_raises (a : float) :
  divide a (of_Z 0) = Raised (ValueError "The divisor cannot be zero")
  /\ (exists pre, "The divisor cannot be zero" = pre ++ "divisor cannot be zero")
  /\ (forall v, divide a (of_Z 0) <> Returned v).
Proof.
  repeat split.
  - exists "The ". reflexivity.
  - intros v H. discriminate H.
Qed.

(** C2: whenever [b == 0] is false, [divide(a, b)] returns what the float
    operator [a / b] returns, the IEEE-754 binary64 quotient; and
    [divide(10, 2)] is [5.0]. *)
Theorem divide_nonzero_returns_quotient (a b : float) :
  py_eq_int b 0 = false ->
  divide a b = py_truediv a b
  /\ divide a b = Returned (SFdiv prec emax a b)
  /\ divide (of_Z 10) (of_Z 2) = Returned (of_Z 5).
Proof.
  intros Hb. unfold divide. rewrite Hb.
  rewrite py_eq_int_zero in Hb. unfold py_truediv. rewrite Hb.
  repeat split.
Qed.

Lemma divide_nonzero_returns_quotient_witness :
  py_eq_int (of_Z 3) 0 = false
  /\ divide (of_Z 6) (of_Z 3) = Returned (of_Z 2).
Proof.
  split; [reflexivity |].
  destruct (divide_nonzero_returns_quotient (of_Z 6) (of_Z 3) eq_refl)
    as (_ & H & _).
  rewrite H. reflexivity.
Defined.

(** C3: a call of the service raises if and only if it is [divide] with a
    second argument equal to zero; [add], [subtract] and [multiply] always
    return, and so does [divide] with a non-zero divisor. *)
Theorem call_fails_iff (op : operation) (a b : float) :
  fails (call op a b) = true <-> op = Divide /\ py_eq_int b 0 = true.
Proof.
  destruct op; simpl; try (split; [discriminate | intros [H _]; discriminate H]).
  unfold divide. destruct (py_eq_int b 0) eqn:Hb.
  - simpl. tauto.
  - rewrite py_eq_int_zero in Hb. unfold py_truediv. rewrite Hb. simpl.
    split; [discriminate | intros [_ H]; discriminate H].
Qed.

(** The guard of [divide] shadows the operator's own error: [divide] never
    raises [ZeroDivisionError]. *)
Lemma divide_never_ZeroDivisionError (a b : float) (msg : string) :
  divide a b <> Raised (ZeroDivisionError msg).
Proof.
  unfold divide. destruct (py_eq_int b 0) eqn:Hb; [discriminate |].
  rewrite py_eq_int_zero in Hb. unfold py_truediv. rewrite Hb. discriminate.
Qed.

(** C7, as stated, fails when the result is NaN, which no float equals:
    [add(nan, 1) == add(1, nan)] and [multiply(nan, 1) == multiply(1, nan)]
    are both false. *)
Lemma commutative_eq_counterexample :
  py_eq (add nan (of_Z 1)) (add (of_Z 1) nan) = false
  /\ py_eq (multiply nan (of_Z 1)) (multiply (of_Z 1) nan) = false.
Proof. split; reflexivity. Qed.

(** C7, amended: [add(a, b)] and [add(b, a)] are the same float, and so are
    [multiply(a, b)] and [multiply(b, a)]; the two sides compare equal with
    [==] except when that float is NaN, that is when an operand is NaN, when
    the sum is of two infinities of opposite signs, or when the product is of
    a zero and an infinity. *)
Theorem add_multiply_commutative (a b : float) :
  add a b = add b a
  /\ multiply a b = multiply b a
  /\ py_eq (add a b) (add b a)
     = negb (is_nan a || is_nan b || opposite_infinities a b)
  /\ py_eq (multiply a b) (multiply b a)
     = negb (is_nan a || is_nan b || zero_times_infinity a b).
Proof.
  unfold add, multiply.
  rewrite <- (py_add_comm a b), <- (py_mul_comm a b), !py_eq_refl.
  rewrite py_add_nan, py_mul_nan. repeat split.
Qed.

(** C8, as stated, fails when the difference is NaN:
    [subtract(inf, inf) == -subtract(inf, inf)] is false. *)
Lemma subtract_antisymmetric_counterexample :
  py_eq (subtract pos_inf pos_inf) (py_neg (subtract pos_inf pos_inf)) = false.
Proof. reflexivity. Qed.

(** C8, amended: [subtract(a, b) == -subtract(b, a)] holds except when the
    difference is NaN, that is when an operand is NaN or both are the same
    infinity. *)
Theorem subtract_antisymmetric (a b : float) :
  py_eq (subtract a b) (py_neg (subtract b a))
  = negb (is_nan a || is_nan b || same_infinities a b).
Proof.
  unfold subtract.
  rewrite (same_or_zeros_py_eq _ _ (py_sub_antisym a b)), py_sub_nan.
  reflexivity.
Qed.

(** The two sides of C8 need not be the same float: for [a = b] they are the
    zeros of opposite signs, which [==] identifies. *)
Lemma subtract_antisymmetric_signed_zero :
  subtract (of_Z 1) (of_Z 1) = pos_zero
  /\ py_neg (subtract (of_Z 1) (of_Z 1)) = neg_zero
  /\ py_eq pos_zero neg_zero = true.
Proof. repeat split. Qed.


(** It also fails when the product underflows: [2.0**-1074 * 0.5] rounds to
    [0.0], and [0.0 / 0.5] is [0.0]. *)
Lemma roundtrip_underflow_example :
  is_float64 (dyadic 1 (-1074)) = true
  /\ divide (multiply (dyadic 1 (-1074)) (dyadic 1 (-1))) (dyadic 1 (-1))
     = Returned pos_zero
  /\ close_to (1 # 2) pos_zero (dyadic 1 (-1074)) = false.
Proof. repeat split. Qed.

Lemma roundtrip_inexact_example :
  divide (multiply (S754_finite false 7205759403792794 (-56)) (of_Z 3)) (of_Z 3)
  = Returned (S754_finite false 7205759403792795 (-56)).
Proof. reflexivity. Qed.

(** C10: the guard of [divide] is numeric equality with zero: every divisor
    that compares equal to [0] raises the error, whatever [a] is; that
    covers [0.0], [-0.0] and the integer literal [0]. *)
Theorem divide_guard_is_numeric (a b : float) :
  py_eq b (of_Z 0) = true ->
  divide a b = Raised (ValueError "The divisor cannot be zero").
Proof.
  intros Hb. change (of_Z 0) with (S754_zero false) in Hb.
  rewrite py_eq_zero in Hb.
  unfold divide. rewrite py_eq_int_zero, Hb. reflexivity.
Qed.

Lemma divide_guard_is_numeric_witness :
  py_eq neg_zero (of_Z 0) = true
  /\ divide (of_Z 1) neg_zero = Raised (ValueError "The divisor cannot be zero").
Proof.
  split; [reflexivity |].
  apply (divide_guard_is_numeric (of_Z 1) neg_zero). reflexivity.
Defined.

(** ** Rounding, continued: well-formed results and exact values

    The lemmas of this part extend the analysis of [binary_round_aux] to
    [binary_round] and [binary_normalize], which [+] and [-] use, and state
    the error of each operator on the exact values of its operands. *)

Local Open Scope Z_scope.

(** The rounding of [binary_round_aux], on exact values: the result is a
    well-formed float whose distance to the rounded real, scaled by [d], is
    at most half a unit of the subnormal grid or a relative [2^-53]. *)
Lemma binary_round_aux_error (sx : bool) (mx ex r d : Z) :
  0 <= mx -> 0 <= r < d ->
  0 <= fexp prec emax (Zdigits2 mx + ex) - ex ->
  exists m3 e3,
    binary_round_aux prec emax sx mx ex (loc_of r d) = pack sx m3 e3
    /\ 0 <= m3 < 2 ^ 53
    /\ -1074 <= e3
    /\ (e3 = -1074 \/ 2 ^ 52 <= m3)
    /\ ((fexp prec emax (Zdigits2 mx + ex) = -1074
         /\ (2 * Qabs (mag (m3 * d) e3 - mag (mx * d + r) ex)
             <= mag d (-1074))%Q)
        \/ (9007199254740992 * Qabs (mag (m3 * d) e3 - mag (mx * d + r) ex)
            <= mag (mx * d + r) ex)%Q)
    /\ (fexp prec emax (Zdigits2 mx + ex) - ex = 0 -> r = 0 ->
        (mag (m3 * d) e3 == mag (mx * d) ex)%Q).
Proof.
  intros Hm Hr Hn.
  destruct (binary_round_aux_spec sx mx ex r d Hm Hr Hn)
    as (m3 & e3 & Hres & Hm3 & He3 & Herr & Hnorm3 & Hnorm).
  set (n := fexp prec emax (Zdigits2 mx + ex) - ex) in *.
  assert (Hfe : -1074 <= ex + n) by (unfold n; rewrite fexp_eq; lia).
  exists m3, e3. repeat split; try assumption; try lia.
  - assert (Hpn : 0 < 2 ^ n) by (apply Z.pow_pos_nonneg; lia).
    set (X := m3 * d * 2 ^ (e3 - ex)).
    set (Y := mx * d + r).
    replace (m3 * 2 ^ (e3 - ex) * d - (mx * d + r)) with (X - Y) in Herr
      by (unfold X, Y; lia).
    assert (HX : (mag X ex == mag (m3 * d) e3)%Q).
    { unfold X. rewrite mag_shift by lia.
      replace (e3 - ex + ex) with e3 by lia. reflexivity. }
    destruct Hnorm as [Hsub | Hbig].
    + left. split; [unfold n in Hsub; lia |].
      assert (H2 : 2 * Z.abs (X - Y) <= d * 2 ^ n) by lia.
      apply (mag_abs_bound _ _ _ _ ex) in H2.
      rewrite HX, mag_shift in H2 by lia.
      replace (n + ex) with (-1074) in H2 by lia.
      exact H2.
    + right.
      assert (H2 : 2 ^ 53 * Z.abs (X - Y) <= Y).
      { rewrite Z.pow_add_r in Hbig by lia. unfold Y.
        assert (2 ^ n * 2 ^ 52 * d <= mx * d) by nia.
        change (2 ^ 53) with (2 * 2 ^ 52). nia. }
      apply (mag_abs_bound _ _ _ _ ex) in H2.
      rewrite HX in H2. exact H2.
  - intros Hn0 Hr0. fold n in Hn0. rewrite Hn0, Hr0 in Herr.
    assert (E : m3 * 2 ^ (e3 - ex) * d = mx * d).
    { replace (m3 * 2 ^ (e3 - ex) * d - (mx * d + 0))
        with ((m3 * 2 ^ (e3 - ex) - mx) * d) in Herr by lia.
      rewrite Z.abs_mul, (Z.abs_eq d) in Herr by lia.
      change (2 ^ 0) with 1 in Herr.
      assert (Z.abs (m3 * 2 ^ (e3 - ex) - mx) = 0) by nia. nia. }
    rewrite <- E. replace (m3 * 2 ^ (e3 - ex) * d) with (m3 * d * 2 ^ (e3 - ex)) by lia.
    rewrite mag_shift by lia. replace (e3 - ex + ex) with e3 by lia. reflexivity.
Qed.

Lemma pack_is_float64 (sx : bool) (m3 e3 : Z) :
  0 <= m3 < 2 ^ 53 -> -1074 <= e3 -> (e3 = -1074 \/ 2 ^ 52 <= m3) ->
  is_float64 (pack sx m3 e3) = true.
Proof.
  intros Hm He Hn. unfold pack. destruct m3 as [| p | p]; try reflexivity.
  destruct (e3 <=? emax - prec) eqn:Hle; [| reflexivity].
  unfold is_float64, valid_binary, bounded, canonical_mantissa.
  rewrite Hle, andb_true_r. apply Z.eqb_eq. rewrite fexp_eq.
  change (Zpos (digits2_pos p)) with (Zdigits2 (Zpos p)).
  assert (Hd : Zdigits2 (Zpos p) <= 53) by (apply Zdigits2_le; lia).
  destruct Hn as [E | E]; [lia |].
  assert (Hd' : 52 + 1 <= Zdigits2 (Zpos p)) by (apply Zdigits2_ge; lia).
  lia.
Qed.

Lemma F2Q_pack (sx : bool) (m3 e3 : Z) :
  0 <= m3 -> is_finite (pack sx m3 e3) = true ->
  (F2Q (pack sx m3 e3) == if sx then - mag m3 e3 else mag m3 e3)%Q.
Proof.
  intros Hm. unfold pack. destruct m3 as [| p | p]; try lia.
  - intros _. cbn [F2Q]. unfold mag. change (inject_Z 0) with 0%Q.
    destruct sx; ring.
  - destruct (e3 <=? emax - prec); [| discriminate]. intros _. reflexivity.
Qed.

Lemma mag_scale (m e k : Z) : (mag m (e + k) == mag m e * pow2 k)%Q.
Proof. unfold mag. rewrite pow2_add. ring. Qed.

Lemma Qabs_scale (x y c : Q) :
  (0 < c)%Q -> (Qabs (x * c - y * c) == Qabs (x - y) * c)%Q.
Proof.
  intros Hc. rewrite <- (Qabs_pos c) at 3 by apply Qlt_le_weak, Hc.
  rewrite <- Qabs_Qmult. apply Qabs_wd. ring.
Qed.

Lemma mag_nonneg (m e : Z) : 0 <= m -> (0 <= mag m e)%Q.
Proof.
  intros Hm. unfold mag. apply Qmult_le_0_compat.
  - change 0%Q with (inject_Z 0). rewrite <- Zle_Qle. exact Hm.
  - apply Qlt_le_weak, pow2_pos.
Qed.

Lemma pow2_half : (pow2 (-1074) == 2 * pow2 (-1075))%Q.
Proof. change (-1074) with (1 + -1075). rewrite pow2_add. reflexivity. Qed.

Lemma Qabs_signed_diff (s : bool) (x y : Q) :
  (Qabs ((if s then - x else x) - (if s then - y else y)) == Qabs (x - y))%Q.
Proof.
  destruct s; [| reflexivity].
  rewrite <- (Qabs_opp (x - y)). apply Qabs_wd. ring.
Qed.

Lemma Qabs_signed (s : bool) (x : Q) :
  (0 <= x)%Q -> (Qabs (if s then - x else x) == x)%Q.
Proof. intros Hx. destruct s; rewrite ?Qabs_opp; apply Qabs_pos, Hx. Qed.

Lemma mag_opp (m e : Z) : (mag (- m) e == - mag m e)%Q.
Proof. unfold mag. rewrite inject_Z_opp. ring. Qed.

Lemma mag_cond_Zopp (s : bool) (m e : Z) :
  (mag (cond_Zopp s m) e == if s then - mag m e else mag m e)%Q.
Proof. destruct s; cbn [cond_Zopp]; [apply mag_opp | reflexivity]. Qed.

(** The quotient of two finite floats, on exact values. *)
Lemma SFdiv_finite_round (sa sb : bool) (ma mb : positive) (ea eb : Z) :
  exists m3 e3,
    SFdiv prec emax (S754_finite sa ma ea) (S754_finite sb mb eb)
    = pack (xorb sa sb) m3 e3
    /\ 0 <= m3 < 2 ^ 53
    /\ -1074 <= e3
    /\ (e3 = -1074 \/ 2 ^ 52 <= m3)
    /\ ((2 * Qabs (mag m3 e3 * mag (Zpos mb) eb - mag (Zpos ma) ea)
         <= pow2 (-1074) * mag (Zpos mb) eb)%Q
        \/ (9007199254740992 * Qabs (mag m3 e3 * mag (Zpos mb) eb - mag (Zpos ma) ea)
            <= mag (Zpos ma) ea)%Q).
Proof.
  cbn [SFdiv].
  destruct (SFdiv_core_binary prec emax (Zpos ma) ea (Zpos mb) eb) as [[q e'] l] eqn:Hc.
  destruct (SFdiv_core_binary_spec _ _ _ _ _ _ _ Hc)
    as (s & r & Hs & He' & Hqr & Hr & Hq & -> & Hn).
  destruct (binary_round_aux_error (xorb sa sb) q e' r (Zpos mb) Hq Hr Hn)
    as (m3 & e3 & Hres & Hm3 & He3 & Hnorm & Herr & _).
  exists m3, e3. repeat split; try assumption; try lia.
  assert (Hk := pow2_pos eb).
  assert (HX : (mag (m3 * Zpos mb) e3 * pow2 eb == mag m3 e3 * mag (Zpos mb) eb)%Q).
  { rewrite mag_mul, <- mag_scale. reflexivity. }
  assert (HY : (mag (q * Zpos mb + r) e' * pow2 eb == mag (Zpos ma) ea)%Q).
  { rewrite <- Hqr, <- mag_scale, mag_shift by lia.
    replace (s + (e' + eb)) with ea by lia. reflexivity. }
  assert (HD : (mag (Zpos mb) (-1074) * pow2 eb == pow2 (-1074) * mag (Zpos mb) eb)%Q).
  { rewrite <- mag_scale, mag_pow2. reflexivity. }
  rewrite <- HX, <- HY, <- HD, Qabs_scale by exact Hk.
  destruct Herr as [[_ H] | H]; [left | right].
  - rewrite Qmult_assoc. apply Qmult_le_compat_r; [exact H | apply Qlt_le_weak, Hk].
  - rewrite Qmult_assoc. apply Qmult_le_compat_r; [exact H | apply Qlt_le_weak, Hk].
Qed.

(** The product of two finite floats, on exact values. *)
Lemma SFmul_finite_round (sa sb : bool) (ma mb : positive) (ea eb : Z) :
  exists m3 e3,
    SFmul prec emax (S754_finite sa ma ea) (S754_finite sb mb eb)
    = pack (xorb sa sb) m3 e3
    /\ 0 <= m3
    /\ ((2 * Qabs (mag m3 e3 - mag (Zpos ma) ea * mag (Zpos mb) eb)
         <= pow2 (-1074))%Q
        \/ (9007199254740992 * Qabs (mag m3 e3 - mag (Zpos ma) ea * mag (Zpos mb) eb)
            <= mag (Zpos ma) ea * mag (Zpos mb) eb)%Q).
Proof.
  cbn [SFmul]. rewrite Pos2Z.inj_mul.
  set (mx := Zpos ma * Zpos mb). set (ex := ea + eb).
  assert (HAB : (mag (Zpos ma) ea * mag (Zpos mb) eb == mag mx ex)%Q)
    by apply mag_mul.
  assert (Hmx : 0 <= mx) by (unfold mx; lia).
  destruct (Z_le_gt_dec 0 (fexp prec emax (Zdigits2 mx + ex) - ex)) as [Hs | Hs].
  - destruct (binary_round_aux_error (xorb sa sb) mx ex 0 1) as
      (m3 & e3 & Hres & Hm3 & He3 & Hnorm & Herr & _); try lia.
    change (loc_of 0 1) with loc_Exact in Hres.
    exists m3, e3. repeat split; try assumption; try lia.
    replace (m3 * 1) with m3 in Herr by lia.
    replace (mx * 1 + 0) with mx in Herr by lia.
    change (mag 1 (-1074)) with (1 * pow2 (-1074))%Q in Herr.
    rewrite HAB.
    destruct Herr as [[_ H] | H]; [left | right]; [lra | exact H].
  - rewrite binary_round_aux_noshift by lia.
    exists mx, ex. repeat split; try lia. right. rewrite HAB.
    assert (E : (Qabs (mag mx ex - mag mx ex) == 0)%Q).
    { setoid_replace (mag mx ex - mag mx ex)%Q with 0%Q by ring. reflexivity. }
    rewrite E. assert (H := mag_nonneg mx ex Hmx). lra.
Qed.

Lemma iter_xO_pow2 (m d : positive) :
  Zpos (Pos.iter xO m d) = Zpos m * 2 ^ Zpos d.
Proof.
  induction d as [| d IH] using Pos.peano_ind.
  - cbn [Pos.iter]. rewrite (Pos2Z.inj_xO m). change (2 ^ 1) with 2. lia.
  - rewrite Pos.iter_succ, (Pos2Z.inj_xO (Pos.iter xO m d)), IH, Pos2Z.inj_succ.
    rewrite Z.pow_succ_r by lia. lia.
Qed.

Lemma shl_align_spec (mx : positive) (ex ex' : Z) (mz : positive) (ez : Z) :
  shl_align mx ex ex' = (mz, ez) ->
  ez = Z.min ex ex' /\ Zpos mz = Zpos mx * 2 ^ (ex - ez).
Proof.
  unfold shl_align. destruct (ex' - ex) as [| d | d] eqn:Ed; intros [= <- <-].
  - replace (Z.min ex ex') with ex by lia. rewrite Z.sub_diag. split; lia.
  - replace (Z.min ex ex') with ex by lia. rewrite Z.sub_diag. split; lia.
  - replace (Z.min ex ex') with ex' by lia. split; [reflexivity |].
    rewrite iter_xO_pow2. f_equal. f_equal. lia.
Qed.

Lemma Zdigits2_mul_pow2 (m k : Z) :
  0 < m -> 0 <= k -> Zdigits2 (m * 2 ^ k) = Zdigits2 m + k.
Proof.
  intros Hm Hk.
  destruct (Zdigits2_cases m) as [[E _] | (Hd & Hlo & Hhi)]; try lia.
  assert (Hp : 0 < 2 ^ k) by (apply Z.pow_pos_nonneg; lia).
  apply Z.le_antisymm.
  - apply Zdigits2_le; [lia |]. rewrite Z.pow_add_r by lia. nia.
  - assert (H : Zdigits2 m - 1 + k + 1 <= Zdigits2 (m * 2 ^ k)).
    { apply Zdigits2_ge; [lia |]. rewrite Z.pow_add_r by lia. nia. }
    lia.
Qed.

(** [binary_round] always builds a well-formed float; when the exponent of
    its input is that of a float, the result is within a relative [2^-53]. *)
Lemma binary_round_spec (s : bool) (m : positive) (e : Z) :
  exists m3 e3,
    binary_round prec emax s m e = pack s m3 e3
    /\ 0 <= m3 < 2 ^ 53
    /\ -1074 <= e3
    /\ (e3 = -1074 \/ 2 ^ 52 <= m3)
    /\ (-1074 <= e ->
        (9007199254740992 * Qabs (mag m3 e3 - mag (Zpos m) e) <= mag (Zpos m) e)%Q).
Proof.
  unfold binary_round.
  set (e' := fexp prec emax (Zpos (digits2_pos m) + e)).
  destruct (shl_align m e e') as [mz ez] eqn:Hal.
  destruct (shl_align_spec _ _ _ _ _ Hal) as [Hez Hmz].
  assert (Hdig : Zdigits2 (Zpos mz) + ez = Zpos (digits2_pos m) + e).
  { rewrite Hmz, Zdigits2_mul_pow2 by lia. cbn [Zdigits2]. lia. }
  assert (Hn : fexp prec emax (Zdigits2 (Zpos mz) + ez) - ez = e' - ez)
    by (rewrite Hdig; reflexivity).
  destruct (binary_round_aux_error s (Zpos mz) ez 0 1) as
    (m3 & e3 & Hres & Hm3 & He3 & Hnorm & Herr & Hex); try lia.
  change (loc_of 0 1) with loc_Exact in Hres.
  exists m3, e3. repeat split; try assumption; try lia.
  intros He.
  assert (Hval : (mag (Zpos mz) ez == mag (Zpos m) e)%Q).
  { rewrite Hmz, mag_shift by lia. replace (e - ez + ez) with e by lia. reflexivity. }
  replace (m3 * 1) with m3 in Herr, Hex by lia.
  replace (Zpos mz * 1 + 0) with (Zpos mz) in Herr by lia.
  replace (Zpos mz * 1) with (Zpos mz) in Hex by lia.
  rewrite Hval in Herr, Hex.
  destruct Herr as [[Hsub _] | H]; [| exact H].
  rewrite Hdig in Hsub. fold e' in Hsub.
  rewrite Hex by lia.
  setoid_replace (mag (Zpos m) e - mag (Zpos m) e)%Q with 0%Q by ring.
  change (Qabs 0) with 0%Q. assert (H := mag_pos m e). lra.
Qed.

Lemma binary_normalize_is_float64 (m e : Z) (s : bool) :
  is_float64 (binary_normalize prec emax m e s) = true.
Proof.
  destruct m as [| p | p]; [reflexivity | |]; cbn [binary_normalize].
  - destruct (binary_round_spec false p e) as (m3 & e3 & -> & H1 & H2 & H3 & _).
    apply pack_is_float64; assumption.
  - destruct (binary_round_spec true p e) as (m3 & e3 & -> & H1 & H2 & H3 & _).
    apply pack_is_float64; assumption.
Qed.

(** [binary_normalize] on exact values. *)
Lemma binary_normalize_error (m e : Z) :
  -1074 <= e ->
  is_finite (binary_normalize prec emax m e false) = true ->
  (9007199254740992 * Qabs (F2Q (binary_normalize prec emax m e false) - mag m e)
   <= Qabs (mag m e))%Q.
Proof.
  intros He Hfin. destruct m as [| p | p]; cbn [binary_normalize] in *.
  - cbn [F2Q].
    assert (E : (mag 0 e == 0)%Q) by (unfold mag; change (inject_Z 0) with 0%Q; ring).
    rewrite E. change (Qabs (0 - 0)) with 0%Q. change (Qabs 0) with 0%Q. lra.
  - destruct (binary_round_spec false p e) as (m3 & e3 & Hres & [Hm3 _] & _ & _ & Herr).
    rewrite Hres in Hfin |- *. rewrite (F2Q_pack _ _ _ Hm3 Hfin).
    rewrite (Qabs_pos (mag (Zpos p) e)) by apply Qlt_le_weak, mag_pos.
    apply Herr, He.
  - destruct (binary_round_spec true p e) as (m3 & e3 & Hres & [Hm3 _] & _ & _ & Herr).
    rewrite Hres in Hfin |- *. rewrite (F2Q_pack _ _ _ Hm3 Hfin).
    change (Zneg p) with (- Zpos p). rewrite mag_opp.
    rewrite (Qabs_signed_diff true), Qabs_opp.
    rewrite (Qabs_pos (mag (Zpos p) e)) by apply Qlt_le_weak, mag_pos.
    apply Herr, He.
Qed.

Lemma is_float64_finite (s : bool) (m : positive) (e : Z) :
  is_float64 (S754_finite s m e) = true ->
  -1074 <= e <= 971
  /\ Zpos m < 2 ^ 53
  /\ e = Z.max (Zpos (digits2_pos m) + e - 53) (-1074).
Proof.
  unfold is_float64, valid_binary, bounded, canonical_mantissa. intros H.
  apply andb_prop in H. destruct H as [Hc He].
  apply Z.eqb_eq in Hc. apply Z.leb_le in He. rewrite fexp_eq in Hc.
  unfold emax, prec in He.
  assert (B := digits2_pos_bounds m).
  assert (Hd : Zpos (digits2_pos m) <= 53) by lia.
  repeat split; try lia.
  eapply Z.lt_le_trans; [apply B |]. apply Z.pow_le_mono_r; lia.
Qed.

Lemma is_float64_neg (a : float) : is_float64 (py_neg a) = is_float64 a.
Proof. destruct a; reflexivity. Qed.

Lemma F2Q_neg (a : float) : (F2Q (py_neg a) == - F2Q a)%Q.
Proof. destruct a as [s | s | | [|] m e]; cbn [py_neg SFopp F2Q negb]; ring. Qed.

Lemma py_sub_add_neg (a b : float) : py_sub a b = py_add a (py_neg b).
Proof.
  destruct a as [sa | sa | | sa ma ea], b as [sb | sb | | sb mb eb];
    try reflexivity; destruct sa, sb; reflexivity.
Qed.

(** The sum of two finite well-formed floats, on exact values. *)
Lemma py_add_error (a b : float) :
  is_float64 a = true -> is_float64 b = true ->
  is_finite a = true -> is_finite b = true ->
  is_finite (py_add a b) = true ->
  (Qabs (F2Q (py_add a b) - (F2Q a + F2Q b))
   <= (1 # 9007199254740992) * Qabs (F2Q a + F2Q b))%Q.
Proof.
  intros Hva Hvb Ha Hb Hr.
  assert (Hexact : forall x y : Q,
    (x == y)%Q -> (Qabs (x - y) <= (1 # 9007199254740992) * Qabs y)%Q).
  { intros x y E. setoid_replace (x - y)%Q with 0%Q by (rewrite E; ring).
    change (Qabs 0) with 0%Q. assert (H := Qabs_nonneg y). lra. }
  destruct a as [sa | sa | | sa ma ea]; try discriminate Ha;
    destruct b as [sb | sb | | sb mb eb]; try discriminate Hb.
  - apply Hexact. destruct sa, sb; cbn [py_add SFadd F2Q]; ring.
  - apply Hexact. cbn [py_add SFadd F2Q]. ring.
  - apply Hexact. cbn [py_add SFadd F2Q]. ring.
  - destruct (is_float64_finite _ _ _ Hva) as (Hea & _).
    destruct (is_float64_finite _ _ _ Hvb) as (Heb & _).
    unfold py_add in *. cbn [SFadd] in *.
    set (ez := Z.min ea eb) in *.
    destruct (shl_align ma ea ez) as [xa ea'] eqn:Ala.
    destruct (shl_align mb eb ez) as [xb eb'] eqn:Alb.
    destruct (shl_align_spec _ _ _ _ _ Ala) as [Ea Xa].
    destruct (shl_align_spec _ _ _ _ _ Alb) as [Eb Xb].
    cbn [fst] in *.
    set (S := cond_Zopp sa (Zpos xa) + cond_Zopp sb (Zpos xb)) in *.
    assert (Hsum : (mag S ez == F2Q (S754_finite sa ma ea) + F2Q (S754_finite sb mb eb))%Q).
    { assert (Ha' : (mag (Zpos xa) ez == mag (Zpos ma) ea)%Q).
      { rewrite Xa, mag_shift by lia. replace (ea - ea' + ez) with ea by lia.
        reflexivity. }
      assert (Hb' : (mag (Zpos xb) ez == mag (Zpos mb) eb)%Q).
      { rewrite Xb, mag_shift by lia. replace (eb - eb' + ez) with eb by lia.
        reflexivity. }
      unfold S. rewrite mag_plus. cbn [F2Q].
      destruct sa, sb; cbn [cond_Zopp]; rewrite ?mag_opp, Ha', Hb'; reflexivity. }
    assert (Herr := binary_normalize_error S ez ltac:(lia) Hr).
    rewrite Hsum in Herr. lra.
Qed.

Lemma py_add_is_float64 (a b : float) :
  is_float64 a = true -> is_float64 b = true -> is_float64 (py_add a b) = true.
Proof.
  intros Ha Hb.
  destruct a as [sa | sa | | sa ma ea], b as [sb | sb | | sb mb eb];
    try reflexivity; try assumption; try (destruct sa, sb; reflexivity).
  apply binary_normalize_is_float64.
Qed.

(** The rounding of a product of two well-formed floats starts with a
    right shift (possibly by zero bits). *)
Lemma SFmul_shift_nonneg (sa sb : bool) (ma mb : positive) (ea eb : Z) :
  is_float64 (S754_finite sa ma ea) = true ->
  is_float64 (S754_finite sb mb eb) = true ->
  0 <= fexp prec emax (Zdigits2 (Zpos ma * Zpos mb) + (ea + eb)) - (ea + eb).
Proof.
  intros Ha Hb.
  destruct (is_float64_finite _ _ _ Ha) as (_ & _ & Eca).
  destruct (is_float64_finite _ _ _ Hb) as (_ & _ & Ecb).
  assert (Ba := digits2_pos_bounds ma). assert (Bb := digits2_pos_bounds mb).
  set (da := Zpos (digits2_pos ma)) in *. set (db := Zpos (digits2_pos mb)) in *.
  assert (Hda : 1 <= da) by (unfold da; lia).
  assert (Hdb : 1 <= db) by (unfold db; lia).
  assert (Hdx : da - 1 + (db - 1) + 1 <= Zdigits2 (Zpos ma * Zpos mb)).
  { apply Zdigits2_ge; [lia |]. rewrite Z.pow_add_r by lia. nia. }
  rewrite fexp_eq. lia.
Qed.

Lemma py_mul_is_float64 (a b : float) :
  is_float64 a = true -> is_float64 b = true -> is_float64 (py_mul a b) = true.
Proof.
  intros Ha Hb.
  destruct a as [sa | sa | | sa ma ea], b as [sb | sb | | sb mb eb];
    try reflexivity.
  unfold py_mul. cbn [SFmul]. rewrite Pos2Z.inj_mul.
  destruct (binary_round_aux_error (xorb sa sb) (Zpos ma * Zpos mb) (ea + eb) 0 1)
    as (m3 & e3 & Hres & Hm3 & He3 & Hnorm & _); try lia.
  { apply (SFmul_shift_nonneg sa sb); assumption. }
  change (loc_of 0 1) with loc_Exact in Hres. rewrite Hres.
  apply pack_is_float64; assumption.
Qed.

Lemma py_div_is_float64 (a b : float) : is_float64 (py_div a b) = true.
Proof.
  destruct a as [sa | sa | | sa ma ea], b as [sb | sb | | sb mb eb];
    try reflexivity.
  unfold py_div.
  destruct (SFdiv_finite_round sa sb ma mb ea eb)
    as (m3 & e3 & -> & Hm3 & He3 & Hnorm & _).
  apply pack_is_float64; assumption.
Qed.

(** A float is determined by its value: the mantissa and exponent that
    rounding produces for the value of a well-formed float are its own. *)
Lemma canonical_unique (m : positive) (e m3 e3 : Z) (s : bool) :
  is_float64 (S754_finite s m e) = true ->
  0 <= m3 < 2 ^ 53 -> e <= e3 -> (e3 = -1074 \/ 2 ^ 52 <= m3) ->
  m3 * 2 ^ (e3 - e) = Zpos m ->
  m3 = Zpos m /\ e3 = e.
Proof.
  intros Hv Hm3 He Hnorm Hval.
  destruct (is_float64_finite _ _ _ Hv) as (Hev & Hmv & _).
  destruct (Z.eq_dec e3 e) as [E | E].
  - subst e3. rewrite Z.sub_diag in Hval. change (2 ^ 0) with 1 in Hval. lia.
  - exfalso. destruct Hnorm as [Hs | Hs]; [lia |].
    assert (2 ^ 1 <= 2 ^ (e3 - e)) by (apply Z.pow_le_mono_r; lia).
    change (2 ^ 1) with 2 in *. nia.
Qed.

Lemma SFdiv_core_binary_exponent (m1 m2 : positive) (e1 e2 q e' : Z) (l : location) :
  SFdiv_core_binary prec emax (Zpos m1) e1 (Zpos m2) e2 = (q, e', l) ->
  e' = Z.min (fexp prec emax (Zdigits2 (Zpos m1) + e1 - (Zdigits2 (Zpos m2) + e2)))
             (e1 - e2).
Proof.
  unfold SFdiv_core_binary.
  destruct (Z.div_eucl _ (Zpos m2)) as [q0 r0]. intros [= _ <- _]. reflexivity.
Qed.

Lemma py_div_nan (a b : float) :
  is_zero b = false ->
  is_nan (py_div a b) = is_nan a || is_nan b || both_infinities a b.
Proof.
  intros Hb.
  destruct a as [sa | sa | | sa ma ea], b as [sb | sb | | sb mb eb];
    try reflexivity; try discriminate Hb.
  destruct (SFdiv_error sa sb ma mb ea eb) as (m3 & e3 & Hdiv & Hm3 & _).
  unfold py_div. rewrite Hdiv. apply pack_not_nan, Hm3.
Qed.

(** The difference of two finite well-formed floats, on exact values. *)
Lemma py_sub_error (a b : float) :
  is_float64 a = true -> is_float64 b = true ->
  is_finite a = true -> is_finite b = true ->
  is_finite (py_sub a b) = true ->
  (Qabs (F2Q (py_sub a b) - (F2Q a - F2Q b))
   <= (1 # 9007199254740992) * Qabs (F2Q a - F2Q b))%Q.
Proof.
  intros Hva Hvb Ha Hb Hr.
  unfold subtract in *. rewrite py_sub_add_neg in Hr |- *.
  assert (H := py_add_error a (py_neg b) Hva).
  rewrite is_float64_neg in H. specialize (H Hvb Ha).
  assert (Hfb : is_finite (py_neg b) = true) by (destruct b; assumption || reflexivity).
  specialize (H Hfb Hr).
  assert (En := F2Q_neg b).
  setoid_replace (F2Q a - F2Q b)%Q with (F2Q a + F2Q (py_neg b))%Q by (rewrite En; ring).
  exact H.
Qed.

(** The product of two finite floats, on exact values, signs included. *)
Lemma py_mul_error (a b : float) :
  is_finite a = true -> is_finite b = true ->
  is_finite (py_mul a b) = true ->
  (Qabs (F2Q (py_mul a b) - F2Q a * F2Q b)
   <= (1 # 9007199254740992) * Qabs (F2Q a * F2Q b) + pow2 (-1075))%Q.
Proof.
  intros Ha Hb Hp.
  assert (Hpow := pow2_pos (-1075)).
  assert (Hzero : forall x : Q,
    (x == 0)%Q ->
    (Qabs (0 - x) <= (1 # 9007199254740992) * Qabs x + pow2 (-1075))%Q).
  { intros x Hx. rewrite Hx. change (Qabs (0 - 0)) with 0%Q.
    change (Qabs 0) with 0%Q. lra. }
  destruct a as [sa | sa | | sa ma ea]; try discriminate Ha;
    destruct b as [sb | sb | | sb mb eb]; try discriminate Hb;
    try (apply Hzero; cbn [F2Q]; ring).
  unfold multiply, py_mul in *.
  destruct (SFmul_finite_round sa sb ma mb ea eb) as (m3 & e3 & Hres & Hm3 & Herr).
  rewrite Hres in Hp |- *. rewrite (F2Q_pack _ _ _ Hm3 Hp).
  set (W := mag m3 e3) in *. set (A := mag (Zpos ma) ea) in *.
  set (B := mag (Zpos mb) eb) in *.
  assert (HA : (0 < A)%Q) by apply mag_pos.
  assert (HB : (0 < B)%Q) by apply mag_pos.
  assert (HAB : (0 < A * B)%Q) by (apply Qmult_lt_0_compat; assumption).
  assert (Hprod : (F2Q (S754_finite sa ma ea) * F2Q (S754_finite sb mb eb)
                   == if xorb sa sb then - (A * B) else A * B)%Q).
  { cbn [F2Q]. fold A B. destruct sa, sb; cbn [xorb]; ring. }
  rewrite Hprod, Qabs_signed_diff, Qabs_signed by apply Qlt_le_weak, HAB.
  assert (Hh := pow2_half).
  destruct Herr as [H | H]; lra.
Qed.

(** ** Further properties of the four operations *)

(** X1: whatever [divide] raises is the [ValueError] of its guard,
    and it raises only for a zero divisor: the [ZeroDivisionError] of [/]
    never escapes, and NaN or infinite divisors do not raise. *)
Theorem divide_raises_only_ValueError (a b : float) (e : exn) :
  divide a b = Raised e ->
  e = ValueError "The divisor cannot be zero" /\ is_zero b = true.
Proof.
  unfold divide. rewrite py_eq_int_zero. unfold py_truediv.
  destruct (is_zero b); [| discriminate].
  intros [= <-]. split; reflexivity.
Qed.

Lemma divide_raises_only_ValueError_witness :
  divide (of_Z 1) neg_zero = Raised (ValueError "The divisor cannot be zero")
  /\ ValueError "The divisor cannot be zero" = ValueError "The divisor cannot be zero"
  /\ is_zero neg_zero = true.
Proof.
  split; [reflexivity |].
  apply (divide_raises_only_ValueError (of_Z 1) neg_zero). reflexivity.
Defined.

(** X2: a returned quotient is NaN exactly when an operand is NaN or
    both are infinities; the NaN of [0 / 0] is never returned, the guard
    raises first. *)
Theorem divide_returns_nan_iff (a b : float) (q : float) :
  divide a b = Returned q ->
  is_nan q = is_nan a || is_nan b || both_infinities a b.
Proof.
  unfold divide. rewrite py_eq_int_zero. unfold py_truediv.
  destruct (is_zero b) eqn:Hb; [discriminate |].
  intros [= <-]. apply py_div_nan, Hb.
Qed.

Lemma divide_returns_nan_iff_witness :
  divide pos_inf neg_inf = Returned nan
  /\ is_nan nan = is_nan pos_inf || is_nan neg_inf || both_infinities pos_inf neg_inf.
Proof.
  split; [reflexivity |].
  apply (divide_returns_nan_iff pos_inf neg_inf nan). reflexivity.
Defined.

(** X3: [subtract(a, b)] is [add(a, -b)] for all floats, signed zeros,
    infinities and NaN included. *)
Theorem subtract_is_add_neg (a b : float) :
  subtract a b = add a (py_neg b).
Proof. apply py_sub_add_neg. Qed.

(** X4: [-0.0] is neutral for [add] and [0.0] is neutral on the right
    of [subtract]: the other operand comes back unchanged, the sign of a
    zero and NaN included. *)
Theorem add_subtract_zero_neutral (a : float) :
  add a neg_zero = a /\ add neg_zero a = a /\ subtract a pos_zero = a.
Proof.
  destruct a as [[|] | [|] | | sa ma ea]; repeat split.
Qed.

(** X5: negating the first operand negates the product, and negates
    the quotient when [divide] returns (it raises in the same cases). *)
Theorem multiply_divide_neg (a b : float) :
  multiply (py_neg a) b = py_neg (multiply a b)
  /\ divide (py_neg a) b = bind (divide a b) (fun q => Returned (py_neg q)).
Proof.
  split.
  - destruct a as [sa | sa | | sa ma ea], b as [sb | sb | | sb mb eb];
      try reflexivity; try (destruct sa, sb; reflexivity).
    unfold multiply, py_mul, py_neg. cbn [SFopp SFmul].
    rewrite <- binary_round_aux_opp. f_equal. destruct sa, sb; reflexivity.
  - unfold divide. destruct (py_eq_int b 0); [reflexivity |].
    unfold py_truediv. destruct (is_zero b) eqn:Hb; [reflexivity |].
    cbn [bind]. f_equal.
    destruct a as [sa | sa | | sa ma ea], b as [sb | sb | | sb mb eb];
      try reflexivity; try (destruct sa, sb; reflexivity); try discriminate Hb.
    unfold py_div, py_neg. cbn [SFopp SFdiv].
    destruct (SFdiv_core_binary prec emax (Zpos ma) ea (Zpos mb) eb) as [[q e'] l].
    rewrite <- binary_round_aux_opp. f_equal. destruct sa, sb; reflexivity.
Qed.

(** X6: the four operations keep floats well formed: on binary64
    operands every result is again a binary64 value (canonical mantissa,
    exponent in range; or a zero, an infinity or NaN). *)
Theorem results_are_float64 (a b : float) :
  is_float64 a = true -> is_float64 b = true ->
  is_float64 (add a b) = true
  /\ is_float64 (subtract a b) = true
  /\ is_float64 (multiply a b) = true
  /\ (forall q, divide a b = Returned q -> is_float64 q = true).
Proof.
  intros Ha Hb. repeat split.
  - apply py_add_is_float64; assumption.
  - unfold subtract. rewrite py_sub_add_neg.
    apply py_add_is_float64; [assumption |].
    rewrite is_float64_neg. assumption.
  - apply py_mul_is_float64; assumption.
  - intros q. unfold divide. destruct (py_eq_int b 0); [discriminate |].
    unfold py_truediv. destruct (is_zero b); [discriminate |].
    intros [= <-]. apply py_div_is_float64.
Qed.

Lemma results_are_float64_witness :
  is_float64 (S754_finite false 7205759403792794 (-56)) = true
  /\ is_float64 (of_Z 3) = true
  /\ is_float64 (add (S754_finite false 7205759403792794 (-56)) (of_Z 3)) = true
  /\ is_float64 (subtract (S754_finite false 7205759403792794 (-56)) (of_Z 3)) = true
  /\ is_float64 (multiply (S754_finite false 7205759403792794 (-56)) (of_Z 3)) = true
  /\ (forall q, divide (S754_finite false 7205759403792794 (-56)) (of_Z 3) = Returned q ->
       is_float64 q = true).
Proof.
  repeat (split; [reflexivity |]).
  apply (results_are_float64 (S754_finite false 7205759403792794 (-56)) (of_Z 3));
    reflexivity.
Defined.

(** X7: [1.0] is neutral for [multiply]: a well-formed float comes
    back unchanged, on either side. *)
Theorem multiply_one_neutral (a : float) :
  is_float64 a = true ->
  multiply a (of_Z 1) = a /\ multiply (of_Z 1) a = a.
Proof.
  intros Hv.
  assert (H : multiply a (of_Z 1) = a).
  { change (of_Z 1) with (S754_finite false 4503599627370496 (-52)).
    destruct a as [[|] | [|] | | s m e]; try reflexivity.
    unfold multiply, py_mul. cbn [SFmul]. rewrite Pos2Z.inj_mul.
    change (Zpos 4503599627370496) with (2 ^ 52).
    destruct (is_float64_finite _ _ _ Hv) as (Hev & Hmv & Ecan).
    assert (Hdig : Zdigits2 (Zpos m * 2 ^ 52) = Zpos (digits2_pos m) + 52).
    { rewrite Zdigits2_mul_pow2 by lia. reflexivity. }
    assert (Hn : fexp prec emax (Zdigits2 (Zpos m * 2 ^ 52) + (e + -52)) - (e + -52) = 52).
    { rewrite Hdig, fexp_eq. lia. }
    destruct (binary_round_aux_spec (xorb s false) (Zpos m * 2 ^ 52) (e + -52) 0 1)
      as (m3 & e3 & Hres & Hm3 & He3 & Herr & Hnorm & _); try lia.
    change (loc_of 0 1) with loc_Exact in Hres. rewrite Hres.
    rewrite Hn in He3, Herr.
    assert (Hval : m3 * 2 ^ (e3 - e) = Zpos m).
    { replace (e3 - (e + -52)) with (e3 - e + 52) in Herr by lia.
      rewrite Z.pow_add_r in Herr by lia.
      replace (m3 * (2 ^ (e3 - e) * 2 ^ 52) * 1 - (Zpos m * 2 ^ 52 * 1 + 0))
        with ((m3 * 2 ^ (e3 - e) - Zpos m) * 2 ^ 52) in Herr by lia.
      rewrite Z.abs_mul, (Z.abs_eq (2 ^ 52)) in Herr by lia.
      assert (Z.abs (m3 * 2 ^ (e3 - e) - Zpos m) = 0) by lia. lia. }
    destruct (canonical_unique m e m3 e3 s Hv Hm3 ltac:(lia) Hnorm Hval) as [-> ->].
    unfold pack. replace (e <=? emax - prec) with true.
    - rewrite xorb_false_r. reflexivity.
    - symmetry. apply Z.leb_le. unfold emax, prec. lia. }
  split; [exact H |].
  unfold multiply in *. rewrite py_mul_comm. exact H.
Qed.

Lemma multiply_one_neutral_witness :
  is_float64 (S754_finite false 7205759403792794 (-56)) = true
  /\ multiply (S754_finite false 7205759403792794 (-56)) (of_Z 1)
     = S754_finite false 7205759403792794 (-56)
  /\ multiply (of_Z 1) (S754_finite false 7205759403792794 (-56))
     = S754_finite false 7205759403792794 (-56).
Proof.
  split; [reflexivity |].
  apply (multiply_one_neutral (S754_finite false 7205759403792794 (-56))).
  reflexivity.
Defined.

(** X8: dividing a well-formed float by [1.0] returns it unchanged. *)
Theorem divide_one_neutral (a : float) :
  is_float64 a = true -> divide a (of_Z 1) = Returned a.
Proof.
  intros Hv. change (of_Z 1) with (S754_finite false 4503599627370496 (-52)).
  unfold divide, py_truediv. cbn [py_eq_int is_zero cond_Zopp Z.leb Z.compare].
  change (Z.pos 4503599627370496 =? 0 * 2 ^ (- -52)) with false. cbv iota.
  f_equal.
  destruct a as [[|] | [|] | | s m e]; try reflexivity.
  unfold py_div. cbn [SFdiv].
  destruct (SFdiv_core_binary prec emax (Zpos m) e (Zpos 4503599627370496) (-52))
    as [[q e'] l] eqn:Hc.
  assert (He' := SFdiv_core_binary_exponent _ _ _ _ _ _ _ Hc).
  destruct (SFdiv_core_binary_spec _ _ _ _ _ _ _ Hc)
    as (k & r & Hk & Hek & Hqr & Hr & Hq & -> & Hn).
  destruct (is_float64_finite _ _ _ Hv) as (Hev & Hmv & Ecan).
  change (Zdigits2 (Zpos 4503599627370496)) with 53 in He'.
  change (Zdigits2 (Zpos m)) with (Zpos (digits2_pos m)) in He'.
  rewrite fexp_eq in He'.
  change (Zpos 4503599627370496) with (2 ^ 52) in *.
  assert (Hk52 : 52 <= k) by lia.
  assert (Hpk : 0 < 2 ^ (k - 52)) by (apply Z.pow_pos_nonneg; lia).
  assert (Hsplit : 2 ^ k = 2 ^ (k - 52) * 2 ^ 52).
  { rewrite <- Z.pow_add_r by lia. f_equal. lia. }
  assert (Hq' : q = Zpos m * 2 ^ (k - 52) /\ r = 0).
  { rewrite Hsplit in Hqr. 
    assert (Hd : (Zpos m * 2 ^ (k - 52) - q) * 2 ^ 52 = r) by lia.
    assert (Zpos m * 2 ^ (k - 52) - q = 0) by nia. lia. }
  destruct Hq' as [Eq Er]. subst r.
  assert (Hdig : Zdigits2 q = Zpos (digits2_pos m) + (k - 52)).
  { rewrite Eq, Zdigits2_mul_pow2 by lia. reflexivity. }
  assert (Hn' : fexp prec emax (Zdigits2 q + e') - e' = k - 52).
  { rewrite Hdig, fexp_eq. lia. }
  destruct (binary_round_aux_spec (xorb s false) q e' 0 (2 ^ 52) Hq Hr Hn)
    as (m3 & e3 & Hres & Hm3 & He3 & Herr & Hnorm & _).
  rewrite Hres. rewrite Hn' in He3, Herr.
  assert (Hval : m3 * 2 ^ (e3 - e) = Zpos m).
  { replace (e3 - e') with (e3 - e + (k - 52)) in Herr by lia.
    rewrite Z.pow_add_r in Herr by lia.
    replace (m3 * (2 ^ (e3 - e) * 2 ^ (k - 52)) * 2 ^ 52 - (q * 2 ^ 52 + 0))
      with ((m3 * 2 ^ (e3 - e) - Zpos m) * (2 ^ (k - 52) * 2 ^ 52)) in Herr
      by (rewrite Eq; lia).
    rewrite Z.abs_mul, (Z.abs_eq (2 ^ (k - 52) * 2 ^ 52)) in Herr by lia.
    assert (Z.abs (m3 * 2 ^ (e3 - e) - Zpos m) = 0) by nia. lia. }
  destruct (canonical_unique m e m3 e3 s Hv Hm3 ltac:(lia) Hnorm Hval) as [-> ->].
  unfold pack. replace (e <=? emax - prec) with true.
  - rewrite xorb_false_r. reflexivity.
  - symmetry. apply Z.leb_le. unfold emax, prec. lia.
Qed.

Lemma divide_one_neutral_witness :
  is_float64 (S754_finite true 7205759403792794 (-56)) = true
  /\ divide (S754_finite true 7205759403792794 (-56)) (of_Z 1)
     = Returned (S754_finite true 7205759403792794 (-56)).
Proof.
  split; [reflexivity |].
  apply (divide_one_neutral (S754_finite true 7205759403792794 (-56))).
  reflexivity.
Defined.

(** X9: a finite non-zero float divided by itself is exactly [1.0]. *)
Theorem divide_self (a : float) :
  is_finite a = true -> is_zero a = false -> divide a a = Returned (of_Z 1).
Proof.
  intros Hf Hz. unfold divide. rewrite py_eq_int_zero, Hz. unfold py_truediv.
  rewrite Hz. f_equal.
  destruct a as [s | s | | s m e]; try discriminate Hf; try discriminate Hz.
  unfold py_div. cbn [SFdiv]. unfold SFdiv_core_binary.
  replace (Zdigits2 (Zpos m) + e - (Zdigits2 (Zpos m) + e)) with 0 by lia.
  rewrite Z.sub_diag. change (Z.min (fexp prec emax 0) 0) with (-53).
  cbn [Z.sub Z.opp Z.add]. rewrite Z.shiftl_mul_pow2 by lia.
  assert (Hdiv := Z.div_eucl_eq (Zpos m * 2 ^ 53) (Zpos m)).
  assert (Hmod := Z.mod_pos_bound (Zpos m * 2 ^ 53) (Zpos m)).
  unfold Z.modulo in Hmod.
  destruct (Z.div_eucl (Zpos m * 2 ^ 53) (Zpos m)) as [q0 r0].
  specialize (Hdiv ltac:(lia)). specialize (Hmod ltac:(lia)).
  assert (Hq : q0 = 2 ^ 53 /\ r0 = 0).
  { assert (Hd : Zpos m * (2 ^ 53 - q0) = r0) by lia.
    assert (2 ^ 53 - q0 = 0) by nia. lia. }
  destruct Hq as [-> ->].
  replace (new_location (Zpos m) 0) with loc_Exact.
  - rewrite xorb_nilpotent. reflexivity.
  - unfold new_location. destruct (Z.even (Zpos m)); reflexivity.
Qed.

Lemma divide_self_witness :
  is_finite (S754_finite true 7205759403792794 (-56)) = true
  /\ is_zero (S754_finite true 7205759403792794 (-56)) = false
  /\ divide (S754_finite true 7205759403792794 (-56))
            (S754_finite true 7205759403792794 (-56)) = Returned (of_Z 1).
Proof.
  repeat (split; [reflexivity |]).
  apply (divide_self (S754_finite true 7205759403792794 (-56))); reflexivity.
Defined.

(** X10: a finite float minus itself is [+0.0] (also for [-0.0]). *)
Theorem subtract_self (a : float) :
  is_finite a = true -> subtract a a = pos_zero.
Proof.
  intros Hf. destruct a as [[|] | s | | s m e]; try discriminate Hf; try reflexivity.
  unfold subtract, py_sub. cbn [SFsub]. rewrite Z.sub_diag. reflexivity.
Qed.

Lemma subtract_self_witness :
  is_finite neg_zero = true /\ subtract neg_zero neg_zero = pos_zero.
Proof.
  split; [reflexivity |]. apply (subtract_self neg_zero). reflexivity.
Defined.

(** X11: [add] rounds the exact sum correctly: for finite well-formed
    operands and a finite result, the error is at most a relative [2^-53]
    of the exact sum. *)
Theorem add_accuracy (a b : float) :
  is_float64 a = true -> is_float64 b = true ->
  is_finite a = true -> is_finite b = true ->
  is_finite (add a b) = true ->
  (Qabs (F2Q (add a b) - (F2Q a + F2Q b))
   <= (1 # 9007199254740992) * Qabs (F2Q a + F2Q b))%Q.
Proof. apply py_add_error. Qed.

Lemma add_accuracy_witness :
  is_float64 (S754_finite false 7205759403792794 (-56)) = true
  /\ is_float64 (S754_finite false 7205759403792794 (-55)) = true
  /\ is_finite (S754_finite false 7205759403792794 (-56)) = true
  /\ is_finite (S754_finite false 7205759403792794 (-55)) = true
  /\ is_finite (add (S754_finite false 7205759403792794 (-56))
                    (S754_finite false 7205759403792794 (-55))) = true
  /\ (Qabs (F2Q (add (S754_finite false 7205759403792794 (-56))
                     (S754_finite false 7205759403792794 (-55)))
            - (F2Q (S754_finite false 7205759403792794 (-56))
               + F2Q (S754_finite false 7205759403792794 (-55))))
      <= (1 # 9007199254740992)
         * Qabs (F2Q (S754_finite false 7205759403792794 (-56))
                 + F2Q (S754_finite false 7205759403792794 (-55))))%Q.
Proof.
  repeat (split; [reflexivity |]).
  apply (add_accuracy (S754_finite false 7205759403792794 (-56))
                      (S754_finite false 7205759403792794 (-55))); reflexivity.
Defined.

(** X12: [subtract] rounds the exact difference correctly: for finite
    well-formed operands and a finite result, the error is at most a
    relative [2^-53] of the exact difference. *)
Theorem subtract_accuracy (a b : float) :
  is_float64 a = true -> is_float64 b = true ->
  is_finite a = true -> is_finite b = true ->
  is_finite (subtract a b) = true ->
  (Qabs (F2Q (subtract a b) - (F2Q a - F2Q b))
   <= (1 # 9007199254740992) * Qabs (F2Q a - F2Q b))%Q.
Proof. apply py_sub_error. Qed.

Lemma subtract_accuracy_witness :
  is_float64 (S754_finite false 7205759403792794 (-56)) = true
  /\ is_float64 (S754_finite false 7205759403792794 (-55)) = true
  /\ is_finite (S754_finite false 7205759403792794 (-56)) = true
  /\ is_finite (S754_finite false 7205759403792794 (-55)) = true
  /\ is_finite (subtract (S754_finite false 7205759403792794 (-56))
                         (S754_finite false 7205759403792794 (-55))) = true
  /\ (Qabs (F2Q (subtract (S754_finite false 7205759403792794 (-56))
                          (S754_finite false 7205759403792794 (-55)))
            - (F2Q (S754_finite false 7205759403792794 (-56))
               - F2Q (S754_finite false 7205759403792794 (-55))))
      <= (1 # 9007199254740992)
         * Qabs (F2Q (S754_finite false 7205759403792794 (-56))
                 - F2Q (S754_finite false 7205759403792794 (-55))))%Q.
Proof.
  repeat (split; [reflexivity |]).
  apply (subtract_accuracy (S754_finite false 7205759403792794 (-56))
                           (S754_finite false 7205759403792794 (-55))); reflexivity.
Defined.

(** X13: [multiply] rounds the exact product correctly: for finite
    operands and a finite result, the error is at most a relative [2^-53]
    of the exact product plus [2^-1075], half the smallest subnormal. *)
Theorem multiply_accuracy (a b : float) :
  is_finite a = true -> is_finite b = true ->
  is_finite (multiply a b) = true ->
  (Qabs (F2Q (multiply a b) - F2Q a * F2Q b)
   <= (1 # 9007199254740992) * Qabs (F2Q a * F2Q b) + pow2 (-1075))%Q.
Proof. apply py_mul_error. Qed.

Lemma multiply_accuracy_witness :
  is_finite (S754_finite false 7205759403792794 (-56)) = true
  /\ is_finite (of_Z 3) = true
  /\ is_finite (multiply (S754_finite false 7205759403792794 (-56)) (of_Z 3)) = true
  /\ (Qabs (F2Q (multiply (S754_finite false 7205759403792794 (-56)) (of_Z 3))
            - F2Q (S754_finite false 7205759403792794 (-56)) * F2Q (of_Z 3))
      <= (1 # 9007199254740992)
         * Qabs (F2Q (S754_finite false 7205759403792794 (-56)) * F2Q (of_Z 3))
         + pow2 (-1075))%Q.
Proof.
  repeat (split; [reflexivity |]).
  apply (multiply_accuracy (S754_finite false 7205759403792794 (-56)) (of_Z 3));
    reflexivity.
Defined.

(** X14: the returned quotient is accurate: for finite operands and a
    finite result [q], [q * b] is within [2^-53 * |a| + 2^-1075 * |b|] of
    [a]. *)
Theorem divide_accuracy (a b q : float) :
  is_finite a = true -> is_finite b = true ->
  divide a b = Returned q ->
  is_finite q = true ->
  (Qabs (F2Q q * F2Q b - F2Q a)
   <= (1 # 9007199254740992) * Qabs (F2Q a) + pow2 (-1075) * Qabs (F2Q b))%Q.
Proof.
  intros Ha Hb Hdiv Hq.
  unfold divide in Hdiv. rewrite py_eq_int_zero in Hdiv. unfold py_truediv in Hdiv.
  destruct (is_zero b) eqn:Hz; [discriminate |]. injection Hdiv as <-.
  destruct b as [sb | sb | | sb mb eb]; try discriminate Hb; try discriminate Hz.
  set (B := mag (Zpos mb) eb). assert (HB : (0 < B)%Q) by apply mag_pos.
  assert (Hpow := pow2_pos (-1075)).
  assert (HbB : (Qabs (F2Q (S754_finite sb mb eb)) == B)%Q) by apply F2Q_abs.
  assert (HpB : (0 < pow2 (-1075) * B)%Q) by (apply Qmult_lt_0_compat; assumption).
  destruct a as [sa | sa | | sa ma ea]; try discriminate Ha.
  - cbn [py_div SFdiv F2Q]. rewrite HbB.
    setoid_replace (0 * F2Q (S754_finite sb mb eb) - 0)%Q with 0%Q by ring.
    change (Qabs 0) with 0%Q. lra.
  - unfold py_div in *.
    destruct (SFdiv_finite_round sa sb ma mb ea eb)
      as (m3 & e3 & Hres & [Hm3 _] & _ & _ & Herr).
    rewrite Hres in Hq |- *. rewrite (F2Q_pack _ _ _ Hm3 Hq), HbB, F2Q_abs.
    set (W := mag m3 e3) in *. set (A := mag (Zpos ma) ea) in *.
    assert (HA : (0 < A)%Q) by apply mag_pos.
    assert (Hprod : ((if xorb sa sb then - W else W) * F2Q (S754_finite sb mb eb)
                     - F2Q (S754_finite sa ma ea)
                     == (if sa then - (W * B) else W * B) - (if sa then - A else A))%Q).
    { cbn [F2Q]. fold A B. destruct sa, sb; cbn [xorb]; ring. }
    rewrite Hprod, Qabs_signed_diff.
    assert (Hh := pow2_half). rewrite Hh in Herr. fold B in Herr.
    destruct Herr as [H | H]; lra.
Qed.

Lemma divide_accuracy_witness :
  is_finite (of_Z 1) = true
  /\ is_finite (of_Z 3) = true
  /\ divide (of_Z 1) (of_Z 3) = Returned (S754_finite false 6004799503160661 (-54))
  /\ is_finite (S754_finite false 6004799503160661 (-54)) = true
  /\ (Qabs (F2Q (S754_finite false 6004799503160661 (-54)) * F2Q (of_Z 3)
            - F2Q (of_Z 1))
      <= (1 # 9007199254740992) * Qabs (F2Q (of_Z 1))
         + pow2 (-1075) * Qabs (F2Q (of_Z 3)))%Q.
Proof.
  repeat (split; [reflexivity |]).
  apply (divide_accuracy (of_Z 1) (of_Z 3) (S754_finite false 6004799503160661 (-54)));
    reflexivity.
Defined.

(** ** The round trip in general

    The lemmas of this part follow [divide(multiply(a, b), b)] for all
    well-formed operands whose product is a normal float: the quotient is
    rounded at the exponent of its own binade, it cannot overflow, and for a
    subnormal [a] it is [a] again. *)











(** ** The returned values of add, subtract and multiply, and the round trip *)

(** C4: [add(a, b)] returns the sum [a + b]: it is the IEEE-754 binary64
    sum [SFadd 53 1024] of its operands, [add(2, 3)] is [5], and for finite
    operands and a finite result it is the exact sum of their values up to a
    relative rounding error of [2^-53]. *)
Theorem add_returns_sum (a b : float) :
  add a b = SFadd 53 1024 a b
  /\ add (of_Z 2) (of_Z 3) = of_Z 5
  /\ py_eq (add (of_Z 2) (of_Z 3)) (of_Z 5) = true
  /\ (is_float64 a = true -> is_float64 b = true ->
      is_finite a = true -> is_finite b = true ->
      is_finite (add a b) = true ->
      (Qabs (F2Q (add a b) - (F2Q a + F2Q b))
       <= (1 # 9007199254740992) * Qabs (F2Q a + F2Q b))%Q).
Proof.
  repeat split. apply py_add_error.
Qed.

Lemma add_returns_sum_witness :
  is_float64 (S754_finite false 7205759403792794 (-56)) = true
  /\ is_float64 (S754_finite false 7205759403792794 (-55)) = true
  /\ is_finite (S754_finite false 7205759403792794 (-56)) = true
  /\ is_finite (S754_finite false 7205759403792794 (-55)) = true
  /\ is_finite (add (S754_finite false 7205759403792794 (-56))
                    (S754_finite false 7205759403792794 (-55))) = true
  /\ add (S754_finite false 7205759403792794 (-56))
         (S754_finite false 7205759403792794 (-55))
     = S754_finite false 5404319552844596 (-54)
  /\ (Qabs (F2Q (add (S754_finite false 7205759403792794 (-56))
                     (S754_finite false 7205759403792794 (-55)))
            - (F2Q (S754_finite false 7205759403792794 (-56))
               + F2Q (S754_finite false 7205759403792794 (-55))))
      <= (1 # 9007199254740992)
         * Qabs (F2Q (S754_finite false 7205759403792794 (-56))
                 + F2Q (S754_finite false 7205759403792794 (-55))))%Q.
Proof.
  repeat (split; [reflexivity |]).
  apply (proj2 (proj2 (proj2
           (add_returns_sum (S754_finite false 7205759403792794 (-56))
                            (S754_finite false 7205759403792794 (-55))))));
    reflexivity.
Defined.

(** C5: [subtract(a, b)] returns the difference [a - b]: it is the IEEE-754
    binary64 difference [SFsub 53 1024] of its operands, [subtract(5, 3)] is
    [2], and for finite operands and a finite result it is the exact
    difference of their values up to a relative rounding error of [2^-53]. *)
Theorem subtract_returns_difference (a b : float) :
  subtract a b = SFsub 53 1024 a b
  /\ subtract (of_Z 5) (of_Z 3) = of_Z 2
  /\ py_eq (subtract (of_Z 5) (of_Z 3)) (of_Z 2) = true
  /\ (is_float64 a = true -> is_float64 b = true ->
      is_finite a = true -> is_finite b = true ->
      is_finite (subtract a b) = true ->
      (Qabs (F2Q (subtract a b) - (F2Q a - F2Q b))
       <= (1 # 9007199254740992) * Qabs (F2Q a - F2Q b))%Q).
Proof.
  repeat split. apply py_sub_error.
Qed.

Lemma subtract_returns_difference_witness :
  is_float64 (S754_finite false 7205759403792794 (-56)) = true
  /\ is_float64 (S754_finite false 7205759403792794 (-55)) = true
  /\ is_finite (S754_finite false 7205759403792794 (-56)) = true
  /\ is_finite (S754_finite false 7205759403792794 (-55)) = true
  /\ is_finite (subtract (S754_finite false 7205759403792794 (-56))
                         (S754_finite false 7205759403792794 (-55))) = true
  /\ (Qabs (F2Q (subtract (S754_finite false 7205759403792794 (-56))
                          (S754_finite false 7205759403792794 (-55)))
            - (F2Q (S754_finite false 7205759403792794 (-56))
               - F2Q (S754_finite false 7205759403792794 (-55))))
      <= (1 # 9007199254740992)
         * Qabs (F2Q (S754_finite false 7205759403792794 (-56))
                 - F2Q (S754_finite false 7205759403792794 (-55))))%Q.
Proof.
  repeat (split; [reflexivity |]).
  apply (proj2 (proj2 (proj2
           (subtract_returns_difference
              (S754_finite false 7205759403792794 (-56))
              (S754_finite false 7205759403792794 (-55))))));
    reflexivity.
Defined.

(** C6: [multiply(a, b)] returns the product [a * b]: it is the IEEE-754
    binary64 product [SFmul 53 1024] of its operands, [multiply(4, 2.5)] is
    [10.0], and for finite operands and a finite result it is the exact
    product of their values up to a relative rounding error of [2^-53] plus
    [2^-1075], half the smallest subnormal. *)
Theorem multiply_returns_product (a b : float) :
  multiply a b = SFmul 53 1024 a b
  /\ multiply (of_Z 4) (dyadic 5 (-1)) = of_Z 10
  /\ py_eq (multiply (of_Z 4) (dyadic 5 (-1))) (of_Z 10) = true
  /\ (is_finite a = true -> is_finite b = true ->
      is_finite (multiply a b) = true ->
      (Qabs (F2Q (multiply a b) - F2Q a * F2Q b)
       <= (1 # 9007199254740992) * Qabs (F2Q a * F2Q b) + pow2 (-1075))%Q).
Proof.
  repeat split. apply py_mul_error.
Qed.

Lemma multiply_returns_product_witness :
  is_finite (S754_finite false 7205759403792794 (-56)) = true
  /\ is_finite (of_Z 3) = true
  /\ is_finite (multiply (S754_finite false 7205759403792794 (-56)) (of_Z 3)) = true
  /\ multiply (S754_finite false 7205759403792794 (-56)) (of_Z 3)
     = S754_finite false 5404319552844596 (-54)
  /\ (Qabs (F2Q (multiply (S754_finite false 7205759403792794 (-56)) (of_Z 3))
            - F2Q (S754_finite false 7205759403792794 (-56)) * F2Q (of_Z 3))
      <= (1 # 9007199254740992)
         * Qabs (F2Q (S754_finite false 7205759403792794 (-56)) * F2Q (of_Z 3))
         + pow2 (-1075))%Q.
Proof.
  repeat (split; [reflexivity |]).
  apply (proj2 (proj2 (proj2
           (multiply_returns_product
              (S754_finite false 7205759403792794 (-56)) (of_Z 3)))));
    reflexivity.
Defined.

(** A product that is subnormal without being zero loses [a] as well:
    [3 * 2^-1074 * 0.5] rounds to [2 * 2^-1074], and the quotient
    [4 * 2^-1074] is a third away from [a]. *)
Lemma roundtrip_subnormal_product_example :
  is_float64 (S754_finite false 3 (-1074)) = true
  /\ is_normal (multiply (S754_finite false 3 (-1074)) (dyadic 1 (-1))) = false
  /\ divide (multiply (S754_finite false 3 (-1074)) (dyadic 1 (-1))) (dyadic 1 (-1))
     = Returned (S754_finite false 4 (-1074))
  /\ close_to (1 # 5) (S754_finite false 4 (-1074)) (S754_finite false 3 (-1074))
     = false.
Proof. repeat split. Qed.


